(** * reggie: Gaussian-process regression (Matern kernel, GP engine, BasicGP)

    A shallow embedding of [reggie/kernels/matern.py] and
    [reggie/models/gp.py] (with the call made by [models/plotting.py]).

    Numeric model.  A numpy float64 is idealised as a real number of the
    Standard Library ([R]): rounding and overflow are not modelled.  The one
    place where the source itself expects a non-finite value, the division
    by the distance matrix that it wraps in [np.errstate(invalid='ignore')],
    is modelled by a partial division whose result is [None] for NaN or an
    infinity.  Arrays are lists: a vector is [list R], a rank-2 array a list
    of rows, a rank-3 array a list of rank-2 arrays. *)

From Stdlib Require Import Reals Lra List String ZArith Bool Arith Lia DecimalString.
Import ListNotations.

Open Scope R_scope.

(** ** Python values, exceptions and the result monad *)

Inductive pyval : Type :=
| PyNone
| PyBool (b : bool)
| PyInt (z : Z)
| PyFloat (r : R)
| PyStr (s : string).

Inductive exn : Type :=
| ValueError (msg : string)
| TypeError (msg : string)
| IndexError (msg : string)
| AttributeError (msg : string)
| LinAlgError (msg : string).

Definition result (A : Type) : Type := (exn + A)%type.

Definition ret {A} (a : A) : result A := inr a.
Definition raise {A} (e : exn) : result A := inl e.
Definition bind {A B} (m : result A) (k : A -> result B) : result B :=
  match m with
  | inl e => inl e
  | inr a => k a
  end.

Declare Scope py_scope.
Delimit Scope py_scope with py.
Notation "x <- m ;; k" := (bind m (fun x => k))
  (at level 61, m at next level, right associativity) : py_scope.
Notation "' pat <- m ;; k" := (bind m (fun x => match x with pat => k end))
  (at level 61, pat pattern, m at next level, right associativity) : py_scope.
Open Scope py_scope.

(** ** Arrays *)

Definition Vec := list R.
Definition Mat := list Vec.
Definition Points := list Vec.

(** A value that went through an unguarded division: [None] is NaN or an
    infinity. *)
Definition fval := option R.
Definition FMat := list (list fval).

Fixpoint map2 {A B C} (f : A -> B -> C) (l1 : list A) (l2 : list B) : list C :=
  match l1, l2 with
  | a :: l1', b :: l2' => f a b :: map2 f l1' l2'
  | _, _ => []
  end.

Definition mat_map {A B} (f : A -> B) (M : list (list A)) : list (list B) :=
  map (map f) M.

Definition mat_map2 {A B C} (f : A -> B -> C)
  (M1 : list (list A)) (M2 : list (list B)) : list (list C) :=
  map2 (map2 f) M1 M2.

Definition entry {A} (M : list (list A)) (i j : nat) : option A :=
  match nth_error M i with
  | Some row => nth_error row j
  | None => None
  end.

Definition vsum (v : Vec) : R := fold_right Rplus 0 v.

(** [o is not None]. *)
Definition is_some {A} (o : option A) : bool :=
  match o with
  | Some _ => true
  | None => false
  end.

Definition pairwise {A} (f : Vec -> Vec -> A) (X1 X2 : Points) : list (list A) :=
  map (fun x => map (f x) X2) X1.

(** ** Guarded floating-point operations *)

(** [x / y] where the source allows [y] to be zero: NaN ([0/0]) or an
    infinity, both [None]. *)
Definition np_div (x y : R) : fval :=
  if Req_dec_T y 0 then None else Some (x / y).

Definition Rltb (x y : R) : bool :=
  if Rlt_dec x y then true else false.

(** [np.where(c, x, y)] at one entry. *)
Definition np_where (c : bool) (x y : fval) : fval :=
  if c then x else y.

Definition fmap (f : R -> R) (x : fval) : fval := option_map f x.

Definition fadd (x y : fval) : fval :=
  match x, y with
  | Some a, Some b => Some (a + b)
  | _, _ => None
  end.

Definition fsum (v : list fval) : fval := fold_right fadd (Some 0) v.

(** ** Distances ([reggie/kernels/_distances.py]) *)

Module Distances.

(** The lengthscale as numpy holds it: a 0-d array (isotropic) or a 1-d
    array with one entry per input dimension (ARD). *)
Inductive Ell : Type :=
| EllScalar (l : R)
| EllVector (l : list R).

(** One row divided by the lengthscale, with numpy's broadcasting of a
    scalar; rows are taken to have one column per entry of an ARD
    lengthscale. *)
Definition div_ell (ell : Ell) (x : Vec) : Vec :=
  match ell with
  | EllScalar l => map (fun xi => xi / l) x
  | EllVector l => map2 Rdiv x l
  end.

(** Modelled from the spec: [rescale] of the absent [_distances] module,
    "rescale inputs by lengthscale (elementwise divide, broadcasting scalar
    or per-dimension)"; an omitted [X2] stays omitted. *)
Definition rescale (ell : Ell) (X1 : Points) (X2 : option Points)
  : Points * option Points :=
  (map (div_ell ell) X1, option_map (map (div_ell ell)) X2).

Definition other (X1 : Points) (X2 : option Points) : Points :=
  match X2 with
  | Some X => X
  | None => X1
  end.

(** Modelled from the spec: [diff] of the absent [_distances] module, the
    "coordinate differences" of every pair of rows ([X1] against itself
    when [X2] is omitted): a rank-3 array. *)
Definition diff (X1 : Points) (X2 : option Points) : list (list Vec) :=
  pairwise (map2 Rminus) X1 (other X1 X2).

(** [np.sqrt(np.sum(d**2, axis=-1))] of one coordinate-difference row. *)
Definition norm2 (d : Vec) : R := sqrt (vsum (map (fun t => t ^ 2) d)).

Definition euclidean (x y : Vec) : R := norm2 (map2 Rminus x y).

(** Modelled from the spec: [dist(X1, X2, metric='euclidean')] of the absent
    [_distances] module, the "pairwise Euclidean distance matrix" between
    [X1] and [X2] ([X1] against itself when [X2] is omitted). *)
Definition dist (X1 : Points) (X2 : option Points) : Mat :=
  pairwise euclidean X1 (other X1 X2).

End Distances.

(** ** The kernel interface ([reggie/kernels/_core.py], as the engine uses it) *)

(** A generator that yielded [items] and then either finished or raised. *)
Record generated (A : Type) : Type := Generated {
  items : list A;
  raised : option exn
}.
Arguments Generated {A} _ _.
Arguments items {A} _.
Arguments raised {A} _.

Module Kernels.

Class Kernel (K : Type) : Type := {
  get_kernel : K -> Points -> option Points -> Mat;
  get_dkernel : K -> Points -> Vec;
  get_grad : K -> Points -> option Points -> generated FMat;
  get_gradx : K -> Points -> option Points -> list FMat
}.

End Kernels.

(** ** The Matern kernel ([reggie/kernels/matern.py]) *)

Module Matern.
Import Distances.

Record t : Type := Make {
  _rho : R;
  _ell : Ell;
  _d : Z;
  _iso : bool;
  ndim : nat
}.

Definition ell_size (ell : Ell) : nat :=
  match ell with
  | EllScalar _ => 1%nat
  | EllVector l => List.length l
  end.

Section Init.

(** The registration of the absent [Parameterized] base, taken as given:
    [_register(name, value, domain=POSITIVE, shape=...)] returns the
    registered value or raises.  The flag says the shape is [()]. *)
Variable register_rho : string -> R -> result R.
Variable register_ell : string -> Ell -> bool -> result Ell.

Definition __init__ (rho : R) (ell : Ell) (d : Z) (ndim_arg : option nat)
  : result t :=
  if negb ((d =? 1)%Z || (d =? 3)%Z || (d =? 5)%Z)
  then raise (ValueError "d must be one of 1, 3, or 5")
  else
    let scalar_shape := match ndim_arg with None => false | Some _ => true end in
    rho' <- register_rho "rho" rho ;;
    ell' <- register_ell "ell" ell scalar_shape ;;
    let iso := match ndim_arg with None => false | Some _ => true end in
    ret (Make rho' ell' d iso
           (match ndim_arg with Some n => n | None => ell_size ell' end)).

End Init.

Definition _f (self : t) (r : R) : R :=
  if (_d self =? 1)%Z then 1
  else if (_d self =? 3)%Z then 1 + r
  else 1 + r * (1 + r / 3).

Definition _g (self : t) (r : R) : R :=
  if (_d self =? 1)%Z then 1
  else if (_d self =? 3)%Z then r
  else r * (1 + r) / 3.

Definition get_kernel (self : t) (X1 : Points) (X2 : option Points) : Mat :=
  let '(X1, X2) := rescale (_ell self) X1 X2 in
  let D := dist X1 X2 in
  let K := mat_map (fun r => _rho self * exp (- r) * _f self r) D in
  K.

Definition get_dkernel (self : t) (X1 : Points) : Vec :=
  repeat (_rho self) (List.length X1).

Section Grad.

(** [dist_foreach] of the absent [_distances] module, taken as given: one
    matrix of coordinate-wise distances per input dimension. *)
Variable dist_foreach : Points -> option Points -> list Mat.

(** The ARD loop of [get_grad]: [G = M * D_ / D / ell[i]] under
    [np.errstate(invalid='ignore')], then [np.where(D < 1e-12, 0, G)]. *)
Definition ard_entry (l : R) (m_d_ : R) (d : R) : fval :=
  let G := fmap (fun q => q / l) (np_div m_d_ d) in
  np_where (Rltb d 1e-12) (Some 0) G.

Fixpoint ard_loop (M D : Mat) (ell : list R) (i : nat) (Ds : list Mat)
  : generated FMat :=
  match Ds with
  | [] => Generated [] None
  | D_ :: rest =>
      match nth_error ell i with
      | None => Generated [] (Some (IndexError "index out of bounds"))
      | Some l =>
          let G := mat_map2 (ard_entry l) (mat_map2 Rmult M D_) D in
          let g := ard_loop M D ell (S i) rest in
          Generated (G :: items g) (raised g)
      end
  end.

Definition get_grad (self : t) (X1 : Points) (X2 : option Points)
  : generated FMat :=
  let '(X1, X2) := rescale (_ell self) X1 X2 in
  let D := dist X1 X2 in
  let E := mat_map (fun r => exp (- r)) D in
  let S := mat_map2 Rmult E (mat_map (_f self) D) in
  let M := mat_map2 Rmult (mat_map (Rmult (_rho self)) E) (mat_map (_g self) D) in
  let dS : FMat := mat_map Some S in
  if _iso self then
    match _ell self with
    | EllScalar l =>
        Generated [dS; mat_map Some (mat_map (fun q => q / l) (mat_map2 Rmult M D))]
                  None
    | EllVector _ =>
        Generated [dS] (Some (ValueError "operands could not be broadcast together"))
    end
  else
    match _ell self with
    | EllVector l =>
        let g := ard_loop M D l 0 (dist_foreach X1 X2) in
        Generated (dS :: items g) (raised g)
    | EllScalar _ =>
        match dist_foreach X1 X2 with
        | [] => Generated [dS] None
        | _ :: _ => Generated [dS] (Some (IndexError "0-d arrays can't be indexed"))
        end
    end.

End Grad.

(** [-M[:, :, None] * D1 / ell] at one pair of rows: [m] is the entry of [M],
    [d1] the coordinate differences. *)
Definition gradx_row (ell : Ell) (m : fval) (d1 : Vec) : list fval :=
  match ell with
  | EllScalar l => map (fun c => fmap (fun mv => - mv * c / l) m) d1
  | EllVector l => map2 (fun c lk => fmap (fun mv => - mv * c / lk) m) d1 l
  end.

Definition get_gradx (self : t) (X1 : Points) (X2 : option Points) : list FMat :=
  let '(X1, X2) := rescale (_ell self) X1 X2 in
  let D1 := diff X1 X2 in
  let D := mat_map norm2 D1 in
  let S := mat_map (fun r => _rho self * exp (- r)) D in
  let M : FMat :=
    mat_map2 (fun s d => np_where (Rltb d 1e-12) (Some 0) (np_div (s * _g self d) d))
             S D in
  let G := mat_map2 (gradx_row (_ell self)) M D1 in
  G.

Section Params.

(** [self.nparams] of the absent [Parameterized] base, taken as given. *)
Variable nparams : t -> nat.

(** [xrange(self.nparams-1)] is empty when [nparams] is 0, as the
    truncated subtraction is. *)
Definition get_dgrad (self : t) (X1 : Points) : generated Vec :=
  Generated (repeat 1 (List.length X1)
             :: repeat (repeat 0 (List.length X1)) (nparams self - 1))
            None.

End Params.

(** The keyword arguments [__repr__] collects, in insertion order. *)
Definition repr_kwargs (self : t) : list (string * pyval) :=
  (if _iso self then [("ndim"%string, PyInt (Z.of_nat (ndim self)))] else [])
  ++ (if negb (_d self =? 3)%Z then [("d"%string, PyInt (_d self))] else []).

Section Repr.

(** [__repr__] of the absent [RealKernel] base, which [__repr__] calls
    through [super] with the collected keywords; taken as given. *)
Variable super_repr : t -> list (string * pyval) -> string.

Definition __repr__ (self : t) : string := super_repr self (repr_kwargs self).

End Repr.

End Matern.

(** ** Mean functions and likelihoods (interfaces the engine consumes) *)

Module Functions.

(** [get_gradx] is optional: the engine probes it with [hasattr]. *)
Class Function (F : Type) : Type := {
  get_function : F -> Points -> Vec;
  get_grad : F -> Points -> generated Vec;
  get_gradx : option (F -> Points -> Mat)
}.

End Functions.

Module Likelihoods.

Class Likelihood (T : Type) : Type := {
  _sn2 : T -> R
}.

End Likelihoods.

(** ** Dense linear algebra on lists *)

Definition dot (u v : Vec) : R := vsum (map2 Rmult u v).

Definition vsub (u v : Vec) : Vec := map2 Rminus u v.
Definition vadd (u v : Vec) : Vec := map2 Rplus u v.

Definition column {A} (d : A) (M : list (list A)) (j : nat) : list A :=
  map (fun row => nth j row d) M.

(** The transpose of a matrix with [n] columns. *)
Definition transpose_cols (n : nat) (M : Mat) : Mat :=
  map (column 0 M) (seq 0 n).

Definition ncols {A} (M : list (list A)) : nat := List.length (hd [] M).

(** [np.dot(A, B.T)]: every row of [A] against every row of [B]. *)
Definition mmul_t (A B : Mat) : Mat := pairwise dot A B.

(** [np.dot(A, v)]. *)
Definition mvec (A : Mat) (v : Vec) : Vec := map (fun row => dot row v) A.

Fixpoint diagonal_from (i : nat) (M : Mat) : Vec :=
  match M with
  | [] => []
  | row :: rest =>
      match nth_error row i with
      | Some x => x :: diagonal_from (S i) rest
      | None => []
      end
  end.

(** [M.diagonal()]. *)
Definition diagonal (M : Mat) : Vec := diagonal_from 0 M.

Definition trace (M : Mat) : R := vsum (diagonal M).

Definition outer (u v : Vec) : Mat := map (fun x => map (Rmult x) v) u.

Fixpoint add_diagonal_from (i : nat) (M : Mat) (v : R) : Mat :=
  match M with
  | [] => []
  | row :: rest =>
      (firstn i row ++
         match skipn i row with
         | [] => []
         | x :: tl => (x + v) :: tl
         end) :: add_diagonal_from (S i) rest v
  end.

(** Modelled from the spec: [add_diagonal(M, v)] of the linear-algebra
    backend (mwhutils.linalg, not part of the sources), which "returns [M]
    with scalar [v] added to every diagonal entry". *)
Definition add_diagonal (M : Mat) (v : R) : Mat := add_diagonal_from 0 M v.

(** The block matrix [[A, Bt], [B, C]]. *)
Definition block (A Bt B C : Mat) : Mat := map2 (@app R) A Bt ++ map2 (@app R) B C.

Definition sum_axis0 (n : nat) (M : Mat) : Vec :=
  fold_right vadd (repeat 0 n) M.

Definition zeros_like (X : Mat) : Mat := mat_map (fun _ => 0) X.

(** [v.reshape(rows, cols)] of a flat array. *)
Definition reshape (rows cols : nat) (v : Vec) : Mat :=
  map (fun i => firstn cols (skipn (i * cols) v)) (seq 0 rows).

(** [np.rollaxis(T, 1)] of a rank-3 array whose second axis has length [n]. *)
Definition rollaxis_1 {A} (n : nat) (T : list (list (list A))) : list (list (list A)) :=
  map (column [] T) (seq 0 n).

(** [np.rollaxis(T, 2)] of a rank-3 array whose last axis has length [d]. *)
Definition rollaxis_2 (d : nat) (T : list Mat) : list Mat :=
  map (fun k => map (fun slab => column 0 slab k) T) (seq 0 d).

Fixpoint all_finite (v : list fval) : option Vec :=
  match v with
  | [] => Some []
  | Some x :: rest => option_map (cons x) (all_finite rest)
  | None :: _ => None
  end.

Fixpoint all_finite_mat (M : FMat) : option Mat :=
  match M with
  | [] => Some []
  | row :: rest =>
      match all_finite row, all_finite_mat rest with
      | Some r, Some m => Some (r :: m)
      | _, _ => None
      end
  end.

Fixpoint fdiagonal_from (i : nat) (M : FMat) : list fval :=
  match M with
  | [] => []
  | row :: rest =>
      match nth_error row i with
      | Some x => x :: fdiagonal_from (S i) rest
      | None => []
      end
  end.

(** [M.diagonal()] of an array that may hold non-finite values. *)
Definition fdiagonal (M : FMat) : list fval := fdiagonal_from 0 M.

(** ** The GP inference engine ([reggie/models/gp.py]) *)

Module Models.
Import Likelihoods.

(** What a numpy-returning method hands back: a flat or a rank-2 array. *)
Inductive ndarray : Type :=
| Flat (v : Vec)
| Arr2 (m : Mat).

Inductive loglike_out : Type :=
| LZ (lZ : R)
| LZgrad (lZ : R) (dlZ : list fval).

Inductive posterior_out : Type :=
| Post (mu s2 : Vec)
| PostGrad (mu s2 : Vec) (dmu ds2 : Mat).

(** The [rng] argument of [sample]: omitted, an integer seed, or a
    generator object (given by its state). *)
Inductive rng_arg (RandomState : Type) : Type :=
| RngNone
| RngSeed (seed : Z)
| RngState (g : RandomState).
Arguments RngNone {RandomState}.
Arguments RngSeed {RandomState} _.
Arguments RngState {RandomState} _.

(** [latent is False]: identity with the singleton [False]. *)
Definition is_False (v : pyval) : bool :=
  match v with
  | PyBool false => true
  | _ => false
  end.

(** Python's truth value of an argument. *)
Definition truthy (v : pyval) : bool :=
  match v with
  | PyNone => false
  | PyBool b => b
  | PyInt z => negb (z =? 0)%Z
  | PyFloat r => if Req_dec_T r 0 then false else true
  | PyStr s => negb (String.eqb s "")
  end.

Record GP (LikeT KernT MeanT : Type) : Type := MkGP {
  _like : LikeT;
  _kern : KernT;
  _mean : MeanT;
  _X : option Points;
  _Y : option Vec;
  _L : option Mat;
  _a : option Vec
}.
Arguments MkGP {LikeT KernT MeanT} _ _ _ _ _ _ _.
Arguments _like {LikeT KernT MeanT} _.
Arguments _kern {LikeT KernT MeanT} _.
Arguments _mean {LikeT KernT MeanT} _.
Arguments _X {LikeT KernT MeanT} _.
Arguments _Y {LikeT KernT MeanT} _.
Arguments _L {LikeT KernT MeanT} _.
Arguments _a {LikeT KernT MeanT} _.

Section Construction.

Context {LikeT KernT MeanT : Type}.

(** [self._register(name, obj, klass)] of the absent [Parameterized] base,
    taken as given, one per sub-model. *)
Variable register_like : string -> LikeT -> result LikeT.
Variable register_kern : string -> KernT -> result KernT.
Variable register_mean : string -> MeanT -> result MeanT.

(** The training set belongs to the absent [Model] base; a new model has
    none. *)
Definition __init__ (like : LikeT) (kern : KernT) (mean : MeanT)
  : result (GP LikeT KernT MeanT) :=
  like' <- register_like "like" like ;;
  kern' <- register_kern "kern" kern ;;
  mean' <- register_mean "mean" mean ;;
  ret (MkGP like' kern' mean' None None None None).

End Construction.

Section Engine.

Context {LikeT KernT MeanT : Type}.
Context `{Likelihood LikeT} `{Kernels.Kernel KernT} `{Functions.Function MeanT}.

Local Abbreviation GP := (GP LikeT KernT MeanT).

(** The linear-algebra backend (mwhutils.linalg), taken as given.
    [solve_triangular L b trans] has a 1-d right-hand side,
    [solve_triangular_mat] a 2-d one. *)
Variable cholesky : Mat -> result Mat.
Variable solve_triangular : Mat -> Vec -> bool -> result Vec.
Variable solve_triangular_mat : Mat -> Mat -> result Mat.
Variable cholesky_update : Mat -> Mat -> Mat -> Vec -> Vec -> result (Mat * Vec).
Variable cholesky_inverse : Mat -> result Mat.

(** [self.nparams] of the absent [Parameterized] base, taken as given. *)
Variable nparams : GP -> nat.

(** Modelled from the spec: [ndata] of the absent [Model] base, the
    "number of rows" of the training inputs; "the pair may be empty
    (0 points)". *)
Definition ndata (self : GP) : nat :=
  match _X self with
  | Some X => List.length X
  | None => 0
  end.

Definition data_X (self : GP) : Points := match _X self with Some X => X | None => [] end.
Definition data_Y (self : GP) : Vec := match _Y self with Some Y => Y | None => [] end.

Definition set_L (self : GP) (L : Mat) : GP :=
  MkGP (_like self) (_kern self) (_mean self) (_X self) (_Y self) (Some L) (_a self).
Definition set_a (self : GP) (a : Vec) : GP :=
  MkGP (_like self) (_kern self) (_mean self) (_X self) (_Y self) (_L self) (Some a).

(** A method that mutates [self]: the outcome and the object as the call
    leaves it, also when it raises. *)
Definition method (A : Type) : Type := GP -> result A * GP.

Definition _update : method unit := fun self =>
  if (0 <? ndata self)%nat then
    let K := Kernels.get_kernel (_kern self) (data_X self) None in
    let K := add_diagonal K (_sn2 (_like self)) in
    let r := vsub (data_Y self) (Functions.get_function (_mean self) (data_X self)) in
    match cholesky K with
    | inl e => (inl e, self)
    | inr L =>
        let self := set_L self L in
        match solve_triangular L r false with
        | inl e => (inl e, self)
        | inr a => (inr tt, set_a self a)
        end
    end
  else (inr tt, self).

Definition _updateinc (X : Points) (Y : Vec) : method unit := fun self =>
  let B := Kernels.get_kernel (_kern self) X (_X self) in
  let C := add_diagonal (Kernels.get_kernel (_kern self) X None) (_sn2 (_like self)) in
  let r := vsub Y (Functions.get_function (_mean self) X) in
  match _L self, _a self with
  | Some L, Some a =>
      match cholesky_update L B C a r with
      | inl e => (inl e, self)
      | inr (L', a') => (inr tt, set_a (set_L self L') a')
      end
  | _, _ => (inl (TypeError "NoneType passed to cholesky_update"), self)
  end.

Definition get_loglike (self : GP) (grad : bool) : result loglike_out :=
  if (ndata self =? 0)%nat then
    ret (if grad then LZgrad 0 (repeat (Some 0) (nparams self)) else LZ 0)
  else
    match _a self, _L self with
    | None, _ => raise (TypeError "unsupported operand: NoneType")
    | Some _, None => raise (AttributeError "NoneType has no attribute diagonal")
    | Some a, Some L =>
        let lZ := -0.5 * dot a a in
        let lZ := lZ - 0.5 * ln (2 * PI) * INR (ndata self) in
        let lZ := lZ - vsum (map ln (diagonal L)) in
        if negb grad then ret (LZ lZ)
        else
          alpha <- solve_triangular L a true ;;
          Li <- cholesky_inverse L ;;
          let Q := mat_map2 Rminus Li (outer alpha alpha) in
          let dK := Kernels.get_grad (_kern self) (data_X self) None in
          let dM := Functions.get_grad (_mean self) (data_X self) in
          match raised dK, raised dM with
          | Some e, _ => raise e
          | None, Some e => raise e
          | None, None =>
              ret (LZgrad lZ
                (Some (-0.5 * trace Q)
                 :: map (fun dK =>
                           fmap (Rmult (-0.5))
                             (fsum (List.concat (mat_map2 (fun q => fmap (Rmult q)) Q dK))))
                        (items dK)
                 ++ map (fun dmu => Some (dot dmu alpha)) (items dM)))
          end
    end.

(** *** Sampling *)

(** The random source, taken as given: [normal g m n scale] is
    [g.normal(size=(m, n), scale=scale)] of numpy's [RandomState], an [m] by
    [n] array of centred normal variates and the generator advanced;
    [rstate rng global] is [random.rstate(rng)] of the random utility
    (mwhutils.random), called while numpy's global generator is in state
    [global]. *)
Variable RandomState : Type.
Variable normal : RandomState -> nat -> nat -> R -> Mat * RandomState.
Variable rstate : rng_arg RandomState -> RandomState -> RandomState.

(** The prior at [X], conditioned on the data when there are any:
    the shared first half of [sample]. *)
Definition sample_moments (self : GP) (X : Points) : result (Vec * Mat) :=
  let mu := Functions.get_function (_mean self) X in
  let Sigma := Kernels.get_kernel (_kern self) X None in
  if (0 <? ndata self)%nat then
    match _L self, _a self with
    | Some L, Some a =>
        let K := Kernels.get_kernel (_kern self) (data_X self) (Some X) in
        V <- solve_triangular_mat L K ;;
        let Vt := transpose_cols (List.length X) V in
        let mu := vadd mu (mvec Vt a) in
        let Sigma := mat_map2 Rminus Sigma (mmul_t Vt Vt) in
        ret (mu, Sigma)
    | _, _ => raise (TypeError "NoneType is not an array")
    end
  else ret (mu, Sigma).

(** [sample] returns its outcome and the generator it drew from, as the
    call leaves it. *)
Definition sample (self : GP) (X : Points) (size : option nat) (latent : pyval)
  (rng : rng_arg RandomState) (global : RandomState)
  : result ndarray * RandomState :=
  let rng := rstate rng global in
  let m := match size with None => 1%nat | Some k => k end in
  let n := List.length X in
  match (ms <- sample_moments self X ;;
         L <- cholesky (add_diagonal (snd ms) 1e-10) ;;
         ret (fst ms, L)) with
  | inl e => (inl e, rng)
  | inr (mu, L) =>
      let '(Z, rng) := normal rng m n 1 in
      let f := map (vadd mu) (mmul_t Z L) in
      let '(f, rng) :=
        if is_False latent then
          let '(E, rng) := normal rng (List.length f) (ncols f)
                             (sqrt (_sn2 (_like self))) in
          (mat_map2 Rplus f E, rng)
        else (f, rng) in
      (inr (match size with
            | None => Flat (List.concat f)
            | Some _ => Arr2 f
            end),
       rng)
  end.

(** *** Prediction *)

Definition get_posterior (self : GP) (X : Points) (grad : bool)
  : result posterior_out :=
  let mu := Functions.get_function (_mean self) X in
  let s2 := Kernels.get_dkernel (_kern self) X in
  '(mu, s2, V) <-
    (if (0 <? ndata self)%nat then
       match _L self, _a self with
       | Some L, Some a =>
           let K := Kernels.get_kernel (_kern self) (data_X self) (Some X) in
           V <- solve_triangular_mat L K ;;
           let mu := vadd mu (mvec (transpose_cols (List.length X) V) a) in
           let s2 := vsub s2 (sum_axis0 (List.length X) (mat_map (fun v => v ^ 2) V)) in
           ret (mu, s2, V)
       | _, _ => raise (TypeError "NoneType is not an array")
       end
     else ret (mu, s2, [])) ;;
  if negb grad then ret (Post mu s2)
  else
    let ds2 := zeros_like X in
    let dmu :=
      match Functions.get_gradx with
      | Some gradx => gradx (_mean self) X
      | None => zeros_like X
      end in
    if (0 <? ndata self)%nat then
      match _L self, _a self with
      | Some L, Some a =>
          let nq := List.length X in
          let d := ncols X in
          let dK := rollaxis_1 (ndata self)
                      (Kernels.get_gradx (_kern self) X (_X self)) in
          let dK := map (@List.concat fval) dK in
          match all_finite_mat dK with
          | None => raise (ValueError "array must not contain infs or NaNs")
          | Some dK =>
              dV <- solve_triangular_mat L dK ;;
              let dmu := mat_map2 Rplus dmu
                           (reshape nq d (mvec (transpose_cols (nq * d) dV) a)) in
              let dV := rollaxis_2 d (map (reshape nq d) dV) in
              let ds2 := mat_map2 Rminus ds2
                           (mat_map (Rmult 2)
                              (transpose_cols nq
                                 (map (fun slab => sum_axis0 nq (mat_map2 Rmult slab V))
                                      dV))) in
              ret (PostGrad mu s2 dmu ds2)
          end
      | _, _ => raise (TypeError "NoneType is not an array")
      end
    else ret (PostGrad mu s2 dmu ds2).

(** *** Calls by keyword *)

(** The first keyword that names none of the parameters still open. *)
Fixpoint unexpected_keyword (params : list string) (kwargs : list (string * pyval))
  : option string :=
  match kwargs with
  | [] => None
  | (k, _) :: rest =>
      if existsb (String.eqb k) params then unexpected_keyword params rest
      else Some k
  end.

Fixpoint keyword (name : string) (kwargs : list (string * pyval)) : option pyval :=
  match kwargs with
  | [] => None
  | (k, v) :: rest => if String.eqb k name then Some v else keyword name rest
  end.

(** A call [self.get_posterior(X, **kwargs)] against the signature
    [get_posterior(self, X, grad=False)]: [X] is bound by position, so
    [grad] is the only parameter a keyword may name. *)
Definition call_get_posterior (self : GP) (X : Points) (kwargs : list (string * pyval))
  : result posterior_out :=
  match unexpected_keyword ["grad"%string] kwargs with
  | Some k =>
      raise (TypeError ("get_posterior() got an unexpected keyword argument '"
                          ++ k ++ "'"))
  | None =>
      get_posterior self X
        (match keyword "grad" kwargs with
         | Some v => truthy v
         | None => false
         end)
  end.

(** Line 55 of [plot_posterior]:
    [mu, s2 = model.get_posterior(x[:, None], predictive=predictive)]. *)
Definition plot_posterior_query (model : GP) (x : Vec) (predictive : bool)
  : result (Vec * Vec) :=
  out <- call_get_posterior model (map (fun xi => [xi]) x)
           [("predictive"%string, PyBool predictive)] ;;
  match out with
  | Post mu s2 => ret (mu, s2)
  | PostGrad _ _ _ _ => raise (ValueError "too many values to unpack")
  end.

End Engine.

(** ** Attaching data *)

Section Lifecycle.

Context {LikeT KernT MeanT : Type}.
Context `{Likelihood LikeT} `{Kernels.Kernel KernT} `{Functions.Function MeanT}.

Local Abbreviation GP := (GP LikeT KernT MeanT).

Variable cholesky : Mat -> result Mat.
Variable solve_triangular : Mat -> Vec -> bool -> result Vec.
Variable cholesky_update : Mat -> Mat -> Mat -> Vec -> Vec -> result (Mat * Vec).

(** Modelled from the spec: the training set of the absent [Model] base,
    "an ordered sequence of input vectors X paired 1:1 with a sequence of
    scalar observations Y", replaced as a whole. *)
Definition with_data (self : GP) (X : Points) (Y : Vec) : GP :=
  MkGP (_like self) (_kern self) (_mean self) (Some X) (Some Y) (_L self) (_a self).

(** Modelled from the spec: the same training set with "m new points
    appended to n existing ones". *)
Definition append_data (self : GP) (X : Points) (Y : Vec) : GP :=
  MkGP (_like self) (_kern self) (_mean self)
       (Some (data_X self ++ X)) (Some (data_Y self ++ Y)) (_L self) (_a self).

(** Modelled from the spec: a write to the hyperparameters, which reach
    the engine through its three sub-models. *)
Definition with_params (self : GP) (like : LikeT) (kern : KernT) (mean : MeanT) : GP :=
  MkGP like kern mean (_X self) (_Y self) (_L self) (_a self).

(** Modelled from the spec: the life cycle of the absent [Model] base.
    "Training data are attached via a full reset ([_update]) or
    incrementally via [_updateinc]": "empty->fitted on first data attach
    ([_update]); fitted->fitted on incremental attach ([_updateinc]) or on
    hyperparameter change ([_update] recompute ...); fitted->empty only by
    discarding all data".  A full reset replaces the training set as a
    whole, on a model with or without data, by a set that may be empty.
    A state counts as reached when the calls that lead to it return: a
    call that raises ends in "a fatal numerical error propagated to the
    caller", and what it leaves behind is stated apart. *)
Inductive reachable : GP -> Prop :=
| reach_init (like : LikeT) (kern : KernT) (mean : MeanT) :
    reachable (MkGP like kern mean None None None None)
| reach_reset (s s' : GP) (X : Points) (Y : Vec) :
    reachable s ->
    List.length X = List.length Y ->
    _update cholesky solve_triangular (with_data s X Y) = (inr tt, s') ->
    reachable s'
| reach_attach_inc (s s' : GP) (X : Points) (Y : Vec) :
    reachable s ->
    (0 < ndata s)%nat ->
    List.length X = List.length Y ->
    _updateinc cholesky_update X Y s = (inr tt, s') ->
    reachable (append_data s' X Y)
| reach_params (s s' : GP) (like : LikeT) (kern : KernT) (mean : MeanT) :
    reachable s ->
    _update cholesky solve_triangular (with_params s like kern mean) = (inr tt, s') ->
    reachable s'.

(** The matrix [_update] factorizes and the residual it whitens, for the
    inputs [X] and targets [Y]. *)
Definition full_K (self : GP) (X : Points) : Mat :=
  add_diagonal (Kernels.get_kernel (_kern self) X None) (_sn2 (_like self)).

Definition residual (self : GP) (X : Points) (Y : Vec) : Vec :=
  vsub Y (Functions.get_function (_mean self) X).

(** The cache of [self] is the one its training data call for. *)
Definition cache_consistent (self : GP) : Prop :=
  if (ndata self =? 0)%nat then _L self = None /\ _a self = None
  else
    exists L a,
      _L self = Some L /\ _a self = Some a /\
      mmul_t L L =
        add_diagonal (Kernels.get_kernel (_kern self) (data_X self) None)
                     (_sn2 (_like self)) /\
      mvec L a =
        vsub (data_Y self) (Functions.get_function (_mean self) (data_X self)).

Definition paired (self : GP) : Prop :=
  List.length (data_X self) = List.length (data_Y self).

(** The two routes of the incremental-refit comparison. *)
Definition refit_full (self : GP) (X0 X1 : Points) (Y0 Y1 : Vec) : result unit * GP :=
  _update cholesky solve_triangular (with_data self (X0 ++ X1) (Y0 ++ Y1)).

Definition refit_incremental (self : GP) (X0 X1 : Points) (Y0 Y1 : Vec)
  : result unit * GP :=
  match _update cholesky solve_triangular (with_data self X0 Y0) with
  | (inr tt, s) =>
      match _updateinc cholesky_update X1 Y1 s with
      | (inr tt, s') => (inr tt, append_data s' X1 Y1)
      | (inl e, s') => (inl e, s')
      end
  | (inl e, s) => (inl e, s)
  end.

End Lifecycle.

(** ** Contracts of the collaborators *)

Section Contracts.

Variable cholesky : Mat -> result Mat.
Variable solve_triangular : Mat -> Vec -> bool -> result Vec.
Variable cholesky_update : Mat -> Mat -> Mat -> Vec -> Vec -> result (Mat * Vec).

(** "[cholesky(M)]: lower-triangular factor of symmetric positive-definite
    [M]": what it returns is a factor. *)
Definition cholesky_contract : Prop :=
  forall M L, cholesky M = inr L -> mmul_t L L = M.

(** "[solve_triangular(L, b)]: forward substitution": what it returns
    solves the system, and it returns for a factor and a right-hand side
    of its size. *)
Definition solve_triangular_contract : Prop :=
  (forall L b a, solve_triangular L b false = inr a -> mvec L a = b) /\
  (forall M L b, cholesky M = inr L -> List.length b = List.length L ->
                 exists a, solve_triangular L b false = inr a).

(** "[cholesky_update(L, B, C, a, r)]: given existing factor [L] of matrix
    [K], and new blocks [B] (cross term), [C] (new diagonal block), extends
    [L] to the factor of the (n+m)x(n+m) block matrix and extends whitened
    residual [a] by [r]". *)
Definition cholesky_update_contract : Prop :=
  forall L B C a r L' a',
    cholesky_update L B C a r = inr (L', a') ->
    cholesky (block (mmul_t L L) (transpose_cols (List.length L) B) B C) = inr L' /\
    solve_triangular L' (mvec L a ++ r) false = inr a'.

End Contracts.

(** [solve_triangular] with a 2-d right-hand side returns an array of the
    shape of that right-hand side: as many rows, rows as long. *)
Definition solve_shape_contract (solve_triangular_mat : Mat -> Mat -> result Mat) : Prop :=
  forall L K V n,
    solve_triangular_mat L K = inr V ->
    Forall (fun row => List.length row = n) K ->
    Forall (fun row => List.length row = n) V.

(** "Randomness for sampling is parameterized by an explicit generator/seed
    argument, never implicit global state": what [rstate] returns for a
    seed or a generator does not depend on the global generator. *)
Definition rstate_contract {RandomState : Type}
  (rstate : rng_arg RandomState -> RandomState -> RandomState) : Prop :=
  forall rng global1 global2,
    rng <> RngNone -> rstate rng global1 = rstate rng global2.

(** A kernel that evaluates a symmetric covariance function on every pair
    of rows. *)
Definition kernel_pairwise {K} `{Kernels.Kernel K} (kern : K) : Prop :=
  exists k : Vec -> Vec -> R,
    (forall x y, k x y = k y x) /\
    forall X1 X2, Kernels.get_kernel kern X1 X2 = pairwise k X1 (Distances.other X1 X2).

(** A mean function that is evaluated row by row. *)
Definition mean_rowwise {F} `{Functions.Function F} (mean : F) : Prop :=
  exists mu : Vec -> R, forall X, Functions.get_function mean X = map mu X.

(** What a refit has no business changing: the sub-models and the training
    set of [s'] are those of [s]. *)
Definition same_model {LikeT KernT MeanT : Type} (s s' : GP LikeT KernT MeanT) : Prop :=
  _like s' = _like s /\ _kern s' = _kern s /\ _mean s' = _mean s /\
  _X s' = _X s /\ _Y s' = _Y s.

(** ** BasicGP *)

Module BasicGP.

Section Init.

Context {LikeT MeanT SET : Type}.

(** Collaborators that are not part of the sources, taken as given: the
    constructors [likelihoods.Gaussian], [functions.Constant] and
    [kernels.SE], the registration of the [Parameterized] base and its
    [_rename]. *)
Variable Gaussian : R -> result LikeT.
Variable Constant : R -> result MeanT.
Variable SE : R -> Distances.Ell -> option nat -> result SET.
Variable register_rho : string -> R -> result R.
Variable register_ell : string -> Distances.Ell -> bool -> result Distances.Ell.

Inductive kernel_obj : Type :=
| KSE (k : SET)
| KMatern (k : Matern.t).

(** [kern] is a kernel object or [None]. *)
Variable register_like : string -> LikeT -> result LikeT.
Variable register_kern : string -> option kernel_obj -> result (option kernel_obj).
Variable register_mean : string -> MeanT -> result MeanT.
Variable _rename : GP LikeT (option kernel_obj) MeanT -> list (string * string)
                   -> result (GP LikeT (option kernel_obj) MeanT).

(** [kernel == tag] for an argument that may be any Python value. *)
Definition eq_str (v : pyval) (tag : string) : bool :=
  match v with
  | PyStr s => String.eqb s tag
  | _ => false
  end.

Definition is_None (v : pyval) : bool :=
  match v with
  | PyNone => true
  | _ => false
  end.

Definition select_kernel (rho : R) (ell : Distances.Ell) (ndim : option nat)
  (kernel : pyval) : result (option kernel_obj) :=
  if eq_str kernel "se" then
    k <- SE rho ell ndim ;; ret (Some (KSE k))
  else if eq_str kernel "matern1" then
    k <- Matern.__init__ register_rho register_ell rho ell 1 ndim ;; ret (Some (KMatern k))
  else if eq_str kernel "matern3" then
    k <- Matern.__init__ register_rho register_ell rho ell 3 ndim ;; ret (Some (KMatern k))
  else if eq_str kernel "matern5" then
    k <- Matern.__init__ register_rho register_ell rho ell 5 ndim ;; ret (Some (KMatern k))
  else ret None.

Definition __init__ (sn2 rho : R) (ell : Distances.Ell) (mean : R)
  (ndim : option nat) (kernel : pyval)
  : result (GP LikeT (option kernel_obj) MeanT) :=
  like <- Gaussian sn2 ;;
  mean <- Constant mean ;;
  kern <- select_kernel rho ell ndim kernel ;;
  if is_None kernel then raise (ValueError "Unknown kernel type")
  else
    self <- Models.__init__ register_like register_kern register_mean like kern mean ;;
    _rename self [("like.sn2", "sn2"); ("kern.rho", "rho");
                  ("kern.ell", "ell"); ("mean.bias", "mean")]%string.

End Init.

Section Repr.

Context {LikeT MeanT SET : Type}.

(** The attributes [_iso] and [ndim] of the absent [kernels.SE], and
    [__repr__] of the absent [Parameterized] base, which [__repr__] calls
    through [super] with the collected keywords; taken as given. *)
Variable se_iso : SET -> bool.
Variable se_ndim : SET -> nat.
Variable super_repr : GP LikeT (option (@kernel_obj SET)) MeanT
                      -> list (string * pyval) -> string.

Definition kern_iso (kern : @kernel_obj SET) : bool :=
  match kern with
  | KSE k => se_iso k
  | KMatern k => Matern._iso k
  end.

Definition kern_ndim (kern : @kernel_obj SET) : nat :=
  match kern with
  | KSE k => se_ndim k
  | KMatern k => Matern.ndim k
  end.

(** ['matern{:d}'.format(d)]. *)
Definition matern_tag (d : Z) : string :=
  "matern" ++ NilZero.string_of_int (Z.to_int d).

(** The keyword arguments [__repr__] collects, in insertion order; a model
    whose kernel is [None] has no [_iso] to read. *)
Definition repr_kwargs (self : GP LikeT (option (@kernel_obj SET)) MeanT)
  : result (list (string * pyval)) :=
  match _kern self with
  | None => raise (AttributeError "'NoneType' object has no attribute '_iso'")
  | Some kern =>
      ret ((if kern_iso kern
            then [("ndim"%string, PyInt (Z.of_nat (kern_ndim kern)))] else [])
           ++ match kern with
              | KMatern k => [("kernel"%string, PyStr (matern_tag (Matern._d k)))]
              | KSE _ => []
              end)
  end.

Definition __repr__ (self : GP LikeT (option (@kernel_obj SET)) MeanT) : result string :=
  kwargs <- repr_kwargs self ;;
  ret (super_repr self kwargs).

End Repr.

End BasicGP.

(** ** Instances *)

(** The Matern kernel behind the kernel interface. *)
#[export] Instance Matern_Kernel (dist_foreach : Points -> option Points -> list Mat)
  : Kernels.Kernel Matern.t := {
  Kernels.get_kernel := Matern.get_kernel;
  Kernels.get_dkernel := Matern.get_dkernel;
  Kernels.get_grad := Matern.get_grad dist_foreach;
  Kernels.get_gradx := Matern.get_gradx
}.

(** [likelihoods.Gaussian]: the engine reads its noise variance [_sn2]. *)
Record Gaussian : Type := MkGaussian { gaussian_sn2 : R }.

#[export] Instance Gaussian_Likelihood : Likelihood Gaussian := {
  _sn2 := gaussian_sn2
}.

(** Modelled from the spec: [functions.Constant], absent from the sources:
    the "Constant mean (owns [mean] bias)", one hyperparameter, and no
    [get_gradx] ("falls back to zero gradient for ... constant mean"). *)
Record Constant : Type := MkConstant { bias : R }.

#[export] Instance Constant_Function : Functions.Function Constant := {
  Functions.get_function := fun f X => repeat (bias f) (List.length X);
  Functions.get_grad := fun f X => Generated [repeat 1 (List.length X)] None;
  Functions.get_gradx := None
}.

(** A coordinate-wise distance for the ARD loop: the squared difference in
    every input dimension of the first row. *)
Definition sq_dist_foreach (X1 : Points) (X2 : option Points) : list Mat :=
  map (fun i => pairwise (fun x y => (nth i x 0 - nth i y 0) ^ 2)
                         X1 (Distances.other X1 X2))
      (seq 0 (ncols X1)).

(** A reference backend for systems of one or two equations, enough to run
    the engine on two training points. *)
Module SmallBackend.

Definition cholesky (M : Mat) : result Mat :=
  match M with
  | [[a]] =>
      if Rlt_dec 0 a then inr [[sqrt a]]
      else inl (LinAlgError "matrix is not positive definite")
  | [[a; b]; [c; d]] =>
      if Rlt_dec 0 a then
        if Req_dec_T b c then
          if Rlt_dec 0 (d - c * c / a) then
            inr [[sqrt a; 0]; [c / sqrt a; sqrt (d - c * c / a)]]
          else inl (LinAlgError "matrix is not positive definite")
        else inl (LinAlgError "matrix is not symmetric")
      else inl (LinAlgError "matrix is not positive definite")
  | _ => inl (LinAlgError "unsupported size")
  end.

Definition solve_triangular (L : Mat) (b : Vec) (trans : bool) : result Vec :=
  match L, b with
  | [[l]], [x] =>
      if Req_dec_T l 0 then inl (LinAlgError "singular matrix")
      else inr [x / l]
  | [[l11; l12]; [l21; l22]], [x; y] =>
      if Req_dec_T l11 0 then inl (LinAlgError "singular matrix")
      else if Req_dec_T l22 0 then inl (LinAlgError "singular matrix")
      else if Req_dec_T l12 0 then
        if trans then
          let a2 := y / l22 in inr [(x - l21 * a2) / l11; a2]
        else
          let a1 := x / l11 in inr [a1; (y - l21 * a1) / l22]
      else inl (LinAlgError "matrix is not lower triangular")
  | _, _ => inl (LinAlgError "unsupported size")
  end.

Definition cholesky_update (L B C : Mat) (a r : Vec) : result (Mat * Vec) :=
  L' <- cholesky (block (mmul_t L L) (transpose_cols (List.length L) B) B C) ;;
  a' <- solve_triangular L' (mvec L a ++ r) false ;;
  ret (L', a').

Definition unsupported {A} : result A := inl (LinAlgError "unsupported size").

(** A system of one equation with a 2-d right-hand side, and the inverse
    of a 1 by 1 matrix from its factor. *)
Definition solve_triangular_mat (L K : Mat) : result Mat :=
  match L, K with
  | [[l]], [row] =>
      if Req_dec_T l 0 then inl (LinAlgError "singular matrix")
      else inr [map (fun x => x / l) row]
  | _, _ => unsupported
  end.

Definition cholesky_inverse (L : Mat) : result Mat :=
  match L with
  | [[l]] =>
      if Req_dec_T l 0 then inl (LinAlgError "singular matrix")
      else inr [[1 / (l * l)]]
  | _ => unsupported
  end.

End SmallBackend.

(** A random source for examples: the state counts the draws, every variate
    is the state it was drawn in. *)
Module CountingRandom.

Definition normal (g : nat) (m n : nat) (scale : R) : Mat * nat :=
  (repeat (repeat (scale * INR g) n) m, S g).

(** A seed starts the count at the seed, a generator is used as it is, and
    an omitted argument falls back to the global generator. *)
Definition rstate (rng : rng_arg nat) (global : nat) : nat :=
  match rng with
  | RngNone => global
  | RngSeed seed => Z.to_nat seed
  | RngState g => g
  end.

End CountingRandom.

End Models.

(** ** Plotting ([models/plotting.py]) *)

(** A chain of samples is a list of rows, one per sample; its number of
    columns, [samples.shape[1]], is read off the first row, so a chain
    without samples counts as one without parameters. *)

Module Plotting.
Import Models.

(** What the functions ask of matplotlib, in the order they ask it. *)
Inductive call : Type :=
| canvas_draw
| axis_tight
| spine_hide (name : string)
| legend_loc0
| fig_clf
| add_subplot (nrows ncols index : Z)
| ax_plot (y : list fval)
| ax_scatter (x y : Vec)
| set_yticklabels_empty
| set_xticklabels_empty
| set_ylabel (name : string)
| set_xlabel (name : string).

(** A run of calls that ended normally or in an exception, one after
    another: the second run happens only if the first did not raise. *)
Definition and_then (g1 g2 : generated call) : generated call :=
  match raised g1 with
  | Some _ => g1
  | None => Generated (items g1 ++ items g2) (raised g2)
  end.

Definition calls (l : list call) : generated call := Generated l None.

Fixpoint for_each {A} (body : A -> generated call) (l : list A) : generated call :=
  match l with
  | [] => calls []
  | a :: rest => and_then (body a) (for_each body rest)
  end.

Definition _figure (draw : bool) : list call :=
  if draw then [canvas_draw] else [].

Definition _axis (legend despine draw : bool) : list call :=
  [axis_tight]
  ++ (if despine then [spine_hide "top"; spine_hide "right"] else [])
  ++ (if legend then [legend_loc0] else [])
  ++ (if draw then [canvas_draw] else []).

(** [kwargs.pop(key, default)]: the value and the dictionary without the
    key. *)
Definition pop (key : string) (default : pyval) (kwargs : list (string * pyval))
  : pyval * list (string * pyval) :=
  (match keyword key kwargs with
   | Some v => v
   | None => default
   end,
   filter (fun kv => negb (String.eqb (fst kv) key)) kwargs).

Definition flag (name : string) (kwargs : list (string * pyval)) : bool :=
  match keyword name kwargs with
  | Some v => truthy v
  | None => true
  end.

(** The call [_axis(ax, draw=False, **kwargs)] against the signature
    [_axis(ax, legend=True, despine=True, draw=True)]. *)
Definition _axis_no_draw (kwargs : list (string * pyval)) : generated call :=
  match unexpected_keyword ["legend"; "despine"]%string kwargs with
  | Some k =>
      Generated []
        (Some (TypeError
                 (if String.eqb k "draw"
                  then "_axis() got multiple values for keyword argument 'draw'"
                  else "_axis() got an unexpected keyword argument '" ++ k ++ "'")))
  | None => calls (_axis (flag "legend" kwargs) (flag "despine" kwargs) false)
  end.

(** [names[i]] for an index that is not negative. *)
Definition label (mk : string -> call) (names : list string) (i : nat) : generated call :=
  match nth_error names i with
  | Some name => calls [mk name]
  | None => Generated [] (Some (IndexError "list index out of range"))
  end.

(** *** plot_chain *)

Definition col_min (M : Mat) (j : nat) : R :=
  fold_right Rmin (nth j (hd [] M) 0) (column 0 M j).

Definition col_max (M : Mat) (j : nat) : R :=
  fold_right Rmax (nth j (hd [] M) 0) (column 0 M j).

(** The first two lines of [plot_chain] on a chain with at least one
    sample: [samples - np.min(samples, axis=0)], then the division in place
    by [np.max(samples, axis=0)], which numpy carries out also where the
    maximum is 0. *)
Definition shift (samples : Mat) : Mat :=
  let d := ncols samples in
  map (fun row => map2 Rminus row (map (col_min samples) (seq 0 d))) samples.

Definition normalize (samples : Mat) : FMat :=
  let d := ncols samples in
  let shifted := shift samples in
  map (fun row => map2 np_div row (map (col_max shifted) (seq 0 d))) shifted.

Definition plot_chain (samples : Mat) (names : option (list string))
  (kwargs : list (string * pyval)) : generated call :=
  match samples with
  | [] => Generated [] (Some (ValueError
            "zero-size array to reduction operation minimum which has no identity"))
  | _ :: _ =>
      let normalized := normalize samples in
      let d := ncols normalized in
      let '(draw, kwargs) := pop "draw" (PyBool true) kwargs in
      and_then (calls [fig_clf])
        (and_then
           (for_each
              (fun i =>
                 and_then
                   (calls [add_subplot (Z.of_nat d) 1 (Z.of_nat i + 1);
                           ax_plot (column None normalized i);
                           set_yticklabels_empty])
                   (and_then
                      (match names with
                       | Some names => label set_ylabel names i
                       | None => calls []
                       end)
                      (and_then
                         (calls (if (Z.of_nat i <? Z.of_nat d - 1)%Z
                                 then [set_xticklabels_empty] else []))
                         (_axis_no_draw kwargs))))
              (seq 0 d))
           (calls (_figure (truthy draw))))
  end.

(** *** plot_pairs *)

(** [np.ndindex(d, d)]: every pair, the last index running fastest. *)
Definition ndindex (d : nat) : list (nat * nat) :=
  list_prod (seq 0 d) (seq 0 d).

Definition pair_index (d i j : nat) : Z :=
  ((Z.of_nat j - 1) * (Z.of_nat d - 1) + Z.of_nat i + 1)%Z.

Definition plot_pair (samples : Mat) (names : option (list string))
  (kwargs : list (string * pyval)) (d : nat) (ij : nat * nat) : generated call :=
  let '(i, j) := ij in
  if (j <=? i)%nat then calls []
  else
    and_then
      (calls ([add_subplot (Z.of_nat d - 1) (Z.of_nat d - 1) (pair_index d i j);
               ax_scatter (column 0 samples i) (column 0 samples j)]
              ++ (if (0 <? i)%nat then [set_yticklabels_empty] else [])
              ++ (if (Z.of_nat j <? Z.of_nat d - 1)%Z then [set_xticklabels_empty] else [])))
      (and_then
         (match names with
          | Some names => if (i =? 0)%nat then label set_ylabel names j else calls []
          | None => calls []
          end)
         (and_then
            (match names with
             | Some names =>
                 if (Z.of_nat j =? Z.of_nat d - 1)%Z then label set_xlabel names i
                 else calls []
             | None => calls []
             end)
            (_axis_no_draw kwargs))).

Definition plot_pairs (samples : Mat) (names : option (list string))
  (kwargs : list (string * pyval)) : generated call :=
  let '(draw, kwargs) := pop "draw" (PyBool true) kwargs in
  let '(legend, kwargs) := pop "legend" (PyBool true) kwargs in
  let d := ncols samples in
  and_then (calls [fig_clf])
    (and_then (for_each (plot_pair samples names kwargs d) (ndindex d))
              (calls (_figure (truthy draw)))).

(** The subplots a run asked for. *)
Definition subplots (g : generated call) : list (Z * Z * Z) :=
  flat_map (fun c => match c with
                     | add_subplot r c i => [(r, c, i)]
                     | _ => []
                     end)
           (items g).

(** *** plot_posterior *)

(** [np.min] and [np.max] of a whole array. *)
Definition amin (X : Points) : result R :=
  match List.concat X with
  | [] => raise (ValueError
            "zero-size array to reduction operation minimum which has no identity")
  | x :: xs => ret (fold_right Rmin x xs)
  end.

Definition amax (X : Points) : result R :=
  match List.concat X with
  | [] => raise (ValueError
            "zero-size array to reduction operation maximum which has no identity")
  | x :: xs => ret (fold_right Rmax x xs)
  end.

(** [np.linspace(a, b, num)]. *)
Definition linspace (a b : R) (num : nat) : Vec :=
  map (fun i => a + INR i * ((b - a) / INR (num - 1))) (seq 0 num).

Section PlotPosterior.

Context {LikeT KernT MeanT : Type}.
Context `{Kernels.Kernel KernT} `{Functions.Function MeanT}.

Variable solve_triangular_mat : Mat -> Mat -> result Mat.

(** Lines 56 to 81, the drawing of the mean, the band and the data once
    the posterior is at hand: matplotlib's, taken as given. *)
Variable draw_posterior :
  Vec -> Vec -> Vec -> GP LikeT KernT MeanT -> bool -> list (string * pyval) -> result unit.

(** The model is a GP: [model.ndata] is [ndata], and [model.data] is, in
    the spec's words, the "(X, Y) pair" of the training set, which unpacks
    without an exception also when the model has no data. *)
Definition plot_posterior (model : GP LikeT KernT MeanT) (xmin xmax : option R)
  (data predictive : bool) (kwargs : list (string * pyval)) : result unit :=
  if (ndata model =? 0)%nat && (negb (is_some xmin) || negb (is_some xmax))
  then raise (ValueError "model has no data and no bounds are given")
  else
    let X := data_X model in
    xmin <- match xmin with None => amin X | Some v => ret v end ;;
    xmax <- match xmax with None => amax X | Some v => ret v end ;;
    let x := linspace xmin xmax 500 in
    ms <- plot_posterior_query solve_triangular_mat model x predictive ;;
    draw_posterior x (fst ms) (snd ms) model data kwargs.

End PlotPosterior.

End Plotting.

(** ** The spec's formulas, for comparison *)

(** The smoothness polynomial in the spec's words: "f_1(r)=1, f_3(r)=1+r,
    f_5(r)=1+r+r^2/3". *)
Definition f_spec (d : Z) (r : R) : R :=
  match d with
  | 1%Z => 1
  | 3%Z => 1 + r
  | 5%Z => 1 + r + r ^ 2 / 3
  | _ => 0
  end.

Definition ell_positive (ell : Distances.Ell) : Prop :=
  match ell with
  | Distances.EllScalar l => 0 < l
  | Distances.EllVector l => Forall (Rlt 0) l
  end.

(** The log marginal likelihood in the spec's words:
    "lZ = -1/2 a'a - 1/2 n log(2 pi) - sum log(diag(L))". *)
Definition lZ_spec (n : nat) (L : Mat) (a : Vec) : R :=
  - (1 / 2) * dot a a - 1 / 2 * INR n * ln (2 * PI) - vsum (map ln (diagonal L)).

(** The distance matrix of the rescaled inputs, as [get_kernel], [get_grad]
    and [get_gradx] compute it. *)
Definition rescaled_dist (self : Matern.t) (X1 : Points) (X2 : option Points) : Mat :=
  let '(X1, X2) := Distances.rescale (Matern._ell self) X1 X2 in
  Distances.dist X1 X2.

(** The lengthscale derivatives [get_grad] yields: all but the first
    matrix, which is the derivative in [rho]. *)
Definition lengthscale_grads (dist_foreach : Points -> option Points -> list Mat)
  (self : Matern.t) (X1 : Points) (X2 : option Points) : list FMat :=
  tl (items (Matern.get_grad dist_foreach self X1 X2)).

(** ** Examples *)

Module Examples.
Import Distances.

(** Isotropic Matern-1 and Matern-5 kernels, and an ARD Matern-3 kernel. *)
Definition k_iso1 : Matern.t := Matern.Make 1 (EllScalar 1) 1 true 1.
Definition k_iso5 : Matern.t := Matern.Make 2 (EllScalar 1) 5 true 1.
Definition k_ard3 : Matern.t := Matern.Make 1 (EllVector [1]) 3 false 1.

(** Two points at distance 1e-13. *)
Definition X_origin : Points := [[0]].
Definition X_close : Points := [[1e-13]].

End Examples.

Module EngineExamples.
Import Models.

Definition kern : Kernels.Kernel Matern.t := Matern_Kernel sq_dist_foreach.
#[export] Existing Instance kern.

(** A BasicGP-like model has four hyperparameters: sn2, rho, ell, mean. *)
Definition nparams (self : GP Gaussian Matern.t Constant) : nat := 4.

(** A model without data, and one fitted to the single point (0, 1) under
    unit noise: K + sn2 = 2, so L = [[sqrt 2]] and a = [1 / sqrt 2]. *)
Definition gp_empty : GP Gaussian Matern.t Constant :=
  MkGP (MkGaussian 1) Examples.k_iso1 (MkConstant 0) None None None None.

Definition gp_one : GP Gaussian Matern.t Constant :=
  MkGP (MkGaussian 1) Examples.k_iso1 (MkConstant 0)
       (Some [[0]]) (Some [1]) (Some [[sqrt 2]]) (Some [1 / sqrt 2]).

(** The covariances of the points 0 and 1, as [get_kernel] computes them,
    and the model after [_update] on the single point (0, 1). *)
Definition k00 : R := 1 * exp (- Distances.euclidean [0 / 1] [0 / 1]) * 1.
Definition k10 : R := 1 * exp (- Distances.euclidean [1 / 1] [0 / 1]) * 1.
Definition k11 : R := 1 * exp (- Distances.euclidean [1 / 1] [1 / 1]) * 1.

Definition gp_attached : GP Gaussian Matern.t Constant :=
  set_a (set_L (with_data gp_empty [[0]] [1]) [[sqrt (k00 + 1)]])
        [(1 - 0) / sqrt (k00 + 1)].

End EngineExamples.

(** * Properties *)

Import Models.
#[local] Existing Instance EngineExamples.kern.

(** ** Lists and arrays *)



(** ** The Matern kernel *)

Lemma f_spec_correct (self : Matern.t) (r : R) :
  In (Matern._d self) [1; 3; 5]%Z ->
  Matern._f self r = f_spec (Matern._d self) r.
Proof.
  unfold Matern._f. cbn.
  intros [E | [E | [E | []]]]; rewrite <- E; cbn; try reflexivity.
  field.
Qed.

(** C5: for a Matern kernel with smoothness d in {1,3,5} and positive
    lengthscale, [get_kernel(X1, X2)] is the matrix whose entry for row [x]
    of [X1] and row [y] of [X2] ([X1] itself when [X2] is omitted) is
    rho * exp(-D) * f_d(D), where D is the Euclidean distance of the two
    rows divided by the lengthscale and f_1(r)=1, f_3(r)=1+r,
    f_5(r)=1+r+r^2/3. *)
Theorem matern_get_kernel_spec (self : Matern.t) (X1 : Points) (X2 : option Points) :
  In (Matern._d self) [1; 3; 5]%Z ->
  ell_positive (Matern._ell self) ->
  Matern.get_kernel self X1 X2 =
    pairwise (fun x y =>
                let D := Distances.euclidean (Distances.div_ell (Matern._ell self) x)
                                             (Distances.div_ell (Matern._ell self) y) in
                Matern._rho self * exp (- D) * f_spec (Matern._d self) D)
             X1 (Distances.other X1 X2).
Proof.
  intros Hd _.
  unfold Matern.get_kernel, Distances.rescale, Distances.dist, mat_map, pairwise.
  rewrite !map_map. apply map_ext. intros x. rewrite map_map.
  destruct X2 as [X2|]; cbn; rewrite map_map; apply map_ext; intros y;
    now rewrite f_spec_correct.
Qed.

(** C5 (instance): the covariance matrix of the points 0 and 1 under an
    isotropic Matern-5 kernel. *)
Lemma matern_get_kernel_spec_example :
  Matern.get_kernel Examples.k_iso5 [[0]; [1]] None =
    pairwise (fun x y =>
                let D := Distances.euclidean (Distances.div_ell (Distances.EllScalar 1) x)
                                             (Distances.div_ell (Distances.EllScalar 1) y) in
                2 * exp (- D) * f_spec 5 D)
             [[0]; [1]] [[0]; [1]].
Proof.
  apply (matern_get_kernel_spec Examples.k_iso5 [[0]; [1]] None).
  - cbn. auto.
  - cbn. lra.
Defined.

Lemma nth_error_map2 {A B C} (f : A -> B -> C) (l1 : list A) (l2 : list B) i :
  nth_error (map2 f l1 l2) i =
    match nth_error l1 i, nth_error l2 i with
    | Some a, Some b => Some (f a b)
    | _, _ => None
    end.
Proof.
  revert l2 i. induction l1 as [|a l1 IH]; intros [|b l2] [|i]; cbn; try reflexivity.
  - destruct (nth_error l1 i); reflexivity.
  - apply IH.
Qed.



Lemma Rltb_true (x y : R) : x < y -> Rltb x y = true.
Proof. intros Hlt. unfold Rltb. destruct (Rlt_dec x y); [reflexivity | contradiction]. Qed.










Lemma close_points_distance :
  entry (rescaled_dist Examples.k_iso1 Examples.X_origin (Some Examples.X_close)) 0 0 =
    Some 1e-13.
Proof.
  unfold rescaled_dist, Examples.k_iso1, Examples.X_origin, Examples.X_close.
  unfold Distances.rescale, Distances.dist, Distances.other, option_map, entry, pairwise.
  unfold Matern._ell, Distances.div_ell, map, nth_error.
  unfold Distances.euclidean, Distances.norm2, map2, map, vsum, fold_right.
  f_equal.
  replace ((0 / 1 - 1e-13 / 1) ^ 2 + 0) with (1e-13 * 1e-13) by lra.
  apply sqrt_square. lra.
Qed.



(** The ARD loop on the same two points: the one lengthscale derivative of
    the ARD Matern-3 kernel is 0 there. *)
Lemma matern_ard_near_duplicate_example :
  lengthscale_grads sq_dist_foreach Examples.k_ard3 Examples.X_origin (Some Examples.X_close)
    = [[[Some 0]]].
Proof.
  pose proof close_points_distance as HD.
  unfold rescaled_dist, Examples.k_iso1, Examples.X_origin, Examples.X_close in HD.
  unfold Distances.rescale, Distances.dist, Distances.other, option_map, entry, pairwise in HD.
  unfold Matern._ell, Distances.div_ell, map, nth_error in HD.
  injection HD as HD.
  unfold lengthscale_grads, Matern.get_grad, Examples.k_ard3, Examples.X_origin,
    Examples.X_close.
  unfold Distances.rescale, Distances.dist, Distances.other, option_map, pairwise.
  unfold Matern._ell, Matern._iso, Distances.div_ell, map, map2.
  rewrite HD.
  unfold sq_dist_foreach, ncols, hd, List.length, seq, map, pairwise, Distances.other, map.
  unfold Matern.ard_loop, nth_error, items, tl.
  unfold mat_map2, mat_map, map, map2, Matern.ard_entry.
  rewrite Rltb_true by lra. reflexivity.
Qed.

(** ** The engine *)

Section EngineProperties.

Context {LikeT KernT MeanT : Type}.
Context `{Likelihoods.Likelihood LikeT} `{Kernels.Kernel KernT} `{Functions.Function MeanT}.

Variable cholesky : Mat -> result Mat.
Variable solve_triangular : Mat -> Vec -> bool -> result Vec.
Variable solve_triangular_mat : Mat -> Mat -> result Mat.
Variable cholesky_inverse : Mat -> result Mat.
Variable nparams : GP LikeT KernT MeanT -> nat.

(** C2: in the fitted state (ndata > 0, with cached factor [L] and whitened
    residual [a]), [get_loglike(grad=False)] returns the scalar
    -1/2 a'a - 1/2 ndata log(2 pi) - sum(log(diag(L))). *)
Theorem get_loglike_fitted (self : GP LikeT KernT MeanT) (L : Mat) (a : Vec) :
  (0 < ndata self)%nat ->
  _L self = Some L ->
  _a self = Some a ->
  get_loglike solve_triangular cholesky_inverse nparams self false =
    inr (LZ (lZ_spec (ndata self) L a)).
Proof.
  intros Hn HL Ha. unfold get_loglike.
  destruct (Nat.eqb_spec (ndata self) 0) as [E | _]; [lia|].
  rewrite HL, Ha. cbn. unfold ret, lZ_spec. do 2 f_equal. lra.
Qed.

(** C3 (amended): when ndata is 0, [get_loglike] returns the pair
    (0.0, zero vector of length nparams) when [grad] is true and the scalar
    0.0 when [grad] is false. *)
Theorem get_loglike_empty (self : GP LikeT KernT MeanT) (grad : bool) :
  ndata self = 0%nat ->
  get_loglike solve_triangular cholesky_inverse nparams self grad =
    inr (if grad then LZgrad 0 (repeat (Some 0) (nparams self)) else LZ 0).
Proof.
  intros Hn. unfold get_loglike. rewrite Hn. reflexivity.
Qed.

(** C8 (the code at the failing input): the call of [plot_posterior],
    [model.get_posterior(x[:, None], predictive=predictive)], raises a
    TypeError for every model, query and flag: [get_posterior(self, X,
    grad=False)] has no parameter [predictive]. *)
Theorem plot_posterior_query_raises (model : GP LikeT KernT MeanT) (x : Vec) (b : bool) :
  plot_posterior_query solve_triangular_mat model x b =
    inl (TypeError "get_posterior() got an unexpected keyword argument 'predictive'").
Proof. reflexivity. Qed.

Section Sampling.

Variable RandomState : Type.
Variable normal : RandomState -> nat -> nat -> R -> Mat * RandomState.
Variable rstate : rng_arg RandomState -> RandomState -> RandomState.

Local Abbreviation sample := (sample cholesky solve_triangular_mat RandomState normal rstate).

(** C9: with a generator or a seed supplied, [sample] is a function of that
    argument alone: two calls with identically seeded generators return
    equal results (and leave their generators in equal states) whatever the
    global random state is, provided [rstate] itself ignores the global
    state for an explicit argument. *)
Theorem sample_explicit_rng_deterministic (self : GP LikeT KernT MeanT) (X : Points)
    (size : option nat) (latent : pyval) (rng1 rng2 : rng_arg RandomState)
    (global1 global2 : RandomState) :
  rstate_contract rstate ->
  rng1 <> RngNone ->
  rng1 = rng2 ->
  sample self X size latent rng1 global1 = sample self X size latent rng2 global2.
Proof.
  intros Hrs Hsome <-. unfold Models.sample.
  rewrite (Hrs rng1 global1 global2 Hsome). reflexivity.
Qed.

(** C10: [sample] adds observation noise only for the literal [False].  For
    any other [latent], such as 0 or None, the call is the call with
    [latent=True]; and once the moments [mu], [Sigma] and the factor [L] of
    the jittered [Sigma] are at hand, it returns the latent sample
    [mu + Z L'] of the one draw [Z] it takes from the generator, with no
    noise added, and leaves the generator as that draw left it.  The call
    with [latent=False] returns that sample plus a second draw, of the
    sample's shape and of scale [sqrt(sn2)], and leaves the generator as the
    second draw left it. *)
Theorem sample_falsy_latent_noise_free (self : GP LikeT KernT MeanT) (X : Points)
    (size : option nat) (latent : pyval) (rng : rng_arg RandomState)
    (global : RandomState) :
  latent <> PyBool false ->
  sample self X size latent rng global = sample self X size (PyBool true) rng global /\
  forall (mu : Vec) (Sigma L : Mat),
    sample_moments solve_triangular_mat self X = inr (mu, Sigma) ->
    cholesky (add_diagonal Sigma 1e-10) = inr L ->
    let m := match size with None => 1%nat | Some k => k end in
    let Zg := normal (rstate rng global) m (List.length X) 1 in
    let f := map (vadd mu) (mmul_t (fst Zg) L) in
    let Eg := normal (snd Zg) (List.length f) (ncols f) (sqrt (Likelihoods._sn2 (_like self))) in
    let out := fun f : Mat => match size with
                              | None => Flat (List.concat f)
                              | Some _ => Arr2 f
                              end in
    sample self X size latent rng global = (inr (out f), snd Zg) /\
    sample self X size (PyBool false) rng global =
      (inr (out (mat_map2 Rplus f (fst Eg))), snd Eg).
Proof.
  intros Hnot.
  assert (E : is_False latent = false).
  { destruct latent as [| [|] | | |]; try reflexivity. contradiction. }
  split.
  - unfold Models.sample. rewrite E. reflexivity.
  - intros mu Sigma L Em EL m Zg f Eg out.
    unfold Models.sample. rewrite E, Em. cbn [bind snd fst]. rewrite EL. cbn [bind ret].
    fold m. fold Zg. cbn [is_False].
    destruct Zg as [Z g1] eqn:EZ. cbn [fst snd] in *.
    subst f Eg. destruct (normal g1 _ _ _) as [E1 g2]. cbn [fst snd].
    split; reflexivity.
Qed.

End Sampling.

End EngineProperties.

(** C2 (instance): one training point under unit noise. *)
Lemma get_loglike_fitted_example :
  get_loglike SmallBackend.solve_triangular (fun _ => SmallBackend.unsupported)
              EngineExamples.nparams EngineExamples.gp_one false =
    inr (LZ (lZ_spec 1 [[sqrt 2]] [1 / sqrt 2])).
Proof.
  apply (get_loglike_fitted SmallBackend.solve_triangular
           (fun _ => SmallBackend.unsupported) EngineExamples.nparams
           EngineExamples.gp_one [[sqrt 2]] [1 / sqrt 2]).
  - cbn. lia.
  - reflexivity.
  - reflexivity.
Defined.

(** C3 (counterexample): a model without data, asked for the likelihood
    without its gradient, returns the scalar 0.0 and not a pair. *)
Lemma get_loglike_empty_scalar_not_pair :
  ndata EngineExamples.gp_empty = 0%nat /\
  get_loglike SmallBackend.solve_triangular (fun _ => SmallBackend.unsupported)
              EngineExamples.nparams EngineExamples.gp_empty false <>
    inr (LZgrad 0 (repeat (Some 0) (EngineExamples.nparams EngineExamples.gp_empty))).
Proof.
  split; [reflexivity|].
  unfold get_loglike. cbn. discriminate.
Qed.

(** C3 (instance): the same model, asked for the gradient too. *)
Lemma get_loglike_empty_example :
  get_loglike SmallBackend.solve_triangular (fun _ => SmallBackend.unsupported)
              EngineExamples.nparams EngineExamples.gp_empty true =
    inr (LZgrad 0 [Some 0; Some 0; Some 0; Some 0]).
Proof.
  apply (get_loglike_empty SmallBackend.solve_triangular
           (fun _ => SmallBackend.unsupported) EngineExamples.nparams
           EngineExamples.gp_empty true).
  reflexivity.
Defined.

Lemma counting_rstate_contract : rstate_contract CountingRandom.rstate.
Proof.
  intros [| seed | g] global1 global2 Hsome; [contradiction | reflexivity | reflexivity].
Qed.

(** C9 (instance): the same seed under two different global states. *)
Lemma sample_explicit_rng_deterministic_example :
  sample SmallBackend.cholesky (fun _ _ => SmallBackend.unsupported)
    nat CountingRandom.normal CountingRandom.rstate
    EngineExamples.gp_empty [[0]] None (PyBool true) (RngSeed 7) 0%nat =
  sample SmallBackend.cholesky (fun _ _ => SmallBackend.unsupported)
    nat CountingRandom.normal CountingRandom.rstate
    EngineExamples.gp_empty [[0]] None (PyBool true) (RngSeed 7) 5%nat.
Proof.
  apply (sample_explicit_rng_deterministic SmallBackend.cholesky
           (fun _ _ => SmallBackend.unsupported) nat CountingRandom.normal
           CountingRandom.rstate EngineExamples.gp_empty [[0]] None (PyBool true)
           (RngSeed 7) (RngSeed 7) 0%nat 5%nat).
  - exact counting_rstate_contract.
  - discriminate.
  - reflexivity.
Defined.

(** ** BasicGP *)

Section BasicGPProperties.

Context {LikeT MeanT SET : Type}.
Variable Gaussian : R -> result LikeT.
Variable Constant : R -> result MeanT.
Variable SE : R -> Distances.Ell -> option nat -> result SET.
Variable register_rho : string -> R -> result R.
Variable register_ell : string -> Distances.Ell -> bool -> result Distances.Ell.
Variable register_like : string -> LikeT -> result LikeT.
Variable register_kern : string -> option (@BasicGP.kernel_obj SET)
                        -> result (option (@BasicGP.kernel_obj SET)).
Variable register_mean : string -> MeanT -> result MeanT.
Variable _rename : GP LikeT (option (@BasicGP.kernel_obj SET)) MeanT -> list (string * string)
                   -> result (GP LikeT (option (@BasicGP.kernel_obj SET)) MeanT).

(** C4 (the code at the failing input): for the tag 'unknown' the guard
    [if kernel is None] does not fire, since it tests the tag and not the
    kernel object: no 'Unknown kernel type' error is raised there, and
    [GP.__init__] is entered with [kern = None]. *)
Theorem basicgp_unknown_tag_passes_guard (sn2 rho : R) (ell : Distances.Ell) (mean : R)
    (ndim : option nat) :
  BasicGP.__init__ Gaussian Constant SE register_rho register_ell
    register_like register_kern register_mean _rename
    sn2 rho ell mean ndim (PyStr "unknown") =
  (like <- Gaussian sn2 ;;
   mean' <- Constant mean ;;
   self <- __init__ register_like register_kern register_mean like None mean' ;;
   _rename self [("like.sn2", "sn2"); ("kern.rho", "rho");
                 ("kern.ell", "ell"); ("mean.bias", "mean")]%string).
Proof.
  unfold BasicGP.__init__.
  destruct (Gaussian sn2) as [e | like]; [reflexivity|].
  destruct (Constant mean) as [e | mean']; reflexivity.
Qed.

End BasicGPProperties.

(** With collaborators that accept what they are given, the construction
    with the tag 'unknown' returns a model whose kernel is [None]. *)
Lemma basicgp_unknown_tag_constructs :
  BasicGP.__init__ (SET := unit) (fun sn2 => ret (MkGaussian sn2)) (fun m => ret (MkConstant m))
    (fun _ _ _ => ret tt) (fun _ => ret) (fun _ ell _ => ret ell)
    (fun _ => ret) (fun _ => ret) (fun _ => ret) (fun self _ => ret self)
    (1 / 10) 1 (Distances.EllScalar 1) 0 None (PyStr "unknown") =
  inr (MkGP (MkGaussian (1 / 10)) None (MkConstant 0) None None None None).
Proof. reflexivity. Qed.

(** ** Blocks of a pairwise matrix *)

Lemma map2_length {A B C} (f : A -> B -> C) (l1 : list A) (l2 : list B) :
  List.length (map2 f l1 l2) = Nat.min (List.length l1) (List.length l2).
Proof.
  revert l2. induction l1 as [|a l1 IH]; intros [|b l2]; cbn; try reflexivity.
  now rewrite IH.
Qed.

Lemma map2_app {A B C} (f : A -> B -> C) (l1 l1' : list A) (l2 l2' : list B) :
  List.length l1 = List.length l2 ->
  map2 f (l1 ++ l1') (l2 ++ l2') = map2 f l1 l2 ++ map2 f l1' l2'.
Proof.
  revert l2. induction l1 as [|a l1 IH]; intros [|b l2]; cbn; intros E;
    try discriminate; try reflexivity.
  injection E as E. now rewrite IH.
Qed.

Lemma pairwise_length {A} (f : Vec -> Vec -> A) (X1 X2 : Points) :
  List.length (pairwise f X1 X2) = List.length X1.
Proof. unfold pairwise. apply length_map. Qed.

Lemma pairwise_rows {A} (f : Vec -> Vec -> A) (X1 X2 : Points) :
  Forall (fun row => List.length row = List.length X2) (pairwise f X1 X2).
Proof.
  unfold pairwise. apply Forall_forall. intros row HIn.
  apply in_map_iff in HIn as (x & <- & _). apply length_map.
Qed.

Lemma pairwise_app {A} (f : Vec -> Vec -> A) (X0 X1 Y0 Y1 : Points) :
  pairwise f (X0 ++ X1) (Y0 ++ Y1) =
    map2 (@app A) (pairwise f X0 Y0) (pairwise f X0 Y1) ++
    map2 (@app A) (pairwise f X1 Y0) (pairwise f X1 Y1).
Proof.
  assert (Hcols : forall X, pairwise f X (Y0 ++ Y1) =
                            map2 (@app A) (pairwise f X Y0) (pairwise f X Y1)).
  { induction X as [|x X IH]; cbn; [reflexivity|].
    rewrite map_app. f_equal. exact IH. }
  unfold pairwise at 1. rewrite map_app. fold (pairwise f X0 (Y0 ++ Y1)).
  fold (pairwise f X1 (Y0 ++ Y1)). now rewrite !Hcols.
Qed.

Lemma nth_seq_map {A} (l : list A) (d : A) :
  map (fun j => nth j l d) (seq 0 (List.length l)) = l.
Proof.
  induction l as [|a l IH]; cbn; [reflexivity|].
  f_equal. rewrite <- seq_shift, map_map. exact IH.
Qed.

Lemma transpose_pairwise (k : Vec -> Vec -> R) (X0 X1 : Points) :
  (forall x y, k x y = k y x) ->
  transpose_cols (List.length X0) (pairwise k X1 X0) = pairwise k X0 X1.
Proof.
  intros Hsym. unfold transpose_cols, column, pairwise.
  transitivity (map (fun x => map (k x) X1)
                    (map (fun j => nth j X0 []) (seq 0 (List.length X0))));
    [|now rewrite nth_seq_map].
  rewrite map_map.
  apply map_ext_in. intros j Hj. apply in_seq in Hj.
  rewrite map_map. apply map_ext. intros x.
  rewrite Hsym.
  rewrite (nth_indep _ 0 (k x [])) by (rewrite length_map; lia).
  apply map_nth.
Qed.

(** ** Adding to the diagonal of a block matrix *)

Lemma add_diagonal_from_length (M : list (list R)) (v : R) (i : nat) :
  List.length (add_diagonal_from i M v) = List.length M.
Proof. revert i. induction M as [|row M IH]; intros i; cbn; [reflexivity | now rewrite IH]. Qed.

Lemma add_diagonal_from_app (M N : list (list R)) (v : R) (i : nat) :
  add_diagonal_from i (M ++ N) v =
    add_diagonal_from i M v ++ add_diagonal_from (i + List.length M) N v.
Proof.
  revert i. induction M as [|row M IH]; intros i; cbn.
  - now rewrite Nat.add_0_r.
  - f_equal. rewrite IH. do 2 f_equal. lia.
Qed.

Lemma add_diagonal_from_left (n : nat) (A Bt : list (list R)) (v : R) (i : nat) :
  Forall (fun row => List.length row = n) A ->
  (i + List.length A <= n)%nat ->
  add_diagonal_from i (map2 (@app R) A Bt) v = map2 (@app R) (add_diagonal_from i A v) Bt.
Proof.
  revert Bt i. induction A as [|a A IH]; intros [|bt Bt] i Hrows Hi; cbn in *;
    try reflexivity.
  inversion Hrows as [|? ? Ha HA]; subst.
  f_equal.
  - rewrite firstn_app, skipn_app.
    replace (i - List.length a)%nat with 0%nat by lia. cbn.
    rewrite app_nil_r.
    destruct (skipn i a) as [|x tl] eqn:E.
    + apply (f_equal (@List.length R)) in E. rewrite length_skipn in E. cbn in E. lia.
    + cbn. now rewrite <- app_assoc.
  - apply IH; [assumption | lia].
Qed.

Lemma add_diagonal_from_right (n : nat) (B C : list (list R)) (v : R) (i : nat) :
  Forall (fun row => List.length row = n) B ->
  add_diagonal_from (n + i) (map2 (@app R) B C) v = map2 (@app R) B (add_diagonal_from i C v).
Proof.
  revert C i. induction B as [|b B IH]; intros [|c C] i Hrows; cbn in *; try reflexivity.
  inversion Hrows as [|? ? Hb HB]; subst.
  f_equal.
  - rewrite firstn_app, skipn_app.
    replace (List.length b + i - List.length b)%nat with i by lia.
    rewrite firstn_all2 by lia. rewrite skipn_all2 by lia. cbn.
    now rewrite <- app_assoc.
  - replace (S (List.length b + i)) with (List.length b + S i)%nat by lia.
    apply IH. assumption.
Qed.

Lemma add_diagonal_block (A Bt B C : list (list R)) (v : R) :
  Forall (fun row => List.length row = List.length A) A ->
  Forall (fun row => List.length row = List.length A) B ->
  List.length Bt = List.length A ->
  add_diagonal (block A Bt B C) v = block (add_diagonal A v) Bt B (add_diagonal C v).
Proof.
  intros HA HB HBt. unfold add_diagonal, block.
  rewrite add_diagonal_from_app.
  rewrite (add_diagonal_from_left (List.length A)) by (assumption || (cbn; lia)).
  f_equal.
  rewrite map2_length, HBt, Nat.min_id. cbn.
  rewrite <- (Nat.add_0_r (List.length A)).
  now apply add_diagonal_from_right.
Qed.

Lemma add_diagonal_pairwise_app (k : Vec -> Vec -> R) (X0 X1 : Points) (v : R) :
  add_diagonal (pairwise k (X0 ++ X1) (X0 ++ X1)) v =
    block (add_diagonal (pairwise k X0 X0) v) (pairwise k X0 X1)
          (pairwise k X1 X0) (add_diagonal (pairwise k X1 X1) v).
Proof.
  rewrite pairwise_app. fold (block (pairwise k X0 X0) (pairwise k X0 X1)
                                    (pairwise k X1 X0) (pairwise k X1 X1)).
  apply add_diagonal_block.
  - eapply Forall_impl; [|apply pairwise_rows].
    intros row E. now rewrite pairwise_length.
  - eapply Forall_impl; [|apply pairwise_rows].
    intros row E. now rewrite pairwise_length.
  - now rewrite !pairwise_length.
Qed.

Lemma vsub_app (u0 u1 v0 v1 : list R) :
  List.length u0 = List.length v0 ->
  vsub (u0 ++ u1) (v0 ++ v1) = vsub u0 v0 ++ vsub u1 v1.
Proof. apply map2_app. Qed.

(** ** Refits *)

Section RefitProperties.

Context {LikeT KernT MeanT : Type}.
Context `{Likelihoods.Likelihood LikeT} `{Kernels.Kernel KernT} `{Functions.Function MeanT}.

Variable cholesky : Mat -> result Mat.
Variable solve_triangular : Mat -> Vec -> bool -> result Vec.
Variable cholesky_update : Mat -> Mat -> Mat -> Vec -> Vec -> result (Mat * Vec).

Local Abbreviation GP := (GP LikeT KernT MeanT).
Local Abbreviation _update := (_update cholesky solve_triangular).
Local Abbreviation _updateinc := (_updateinc cholesky_update).

Lemma update_returns (self s' : GP) :
  (0 < ndata self)%nat ->
  _update self = (inr tt, s') ->
  exists L a,
    cholesky (full_K self (data_X self)) = inr L /\
    solve_triangular L (residual self (data_X self) (data_Y self)) false = inr a /\
    s' = set_a (set_L self L) a.
Proof.
  intros Hn. unfold Models._update.
  destruct (Nat.ltb_spec 0 (ndata self)) as [_ | Hle]; [|lia].
  fold (full_K self (data_X self)). fold (residual self (data_X self) (data_Y self)).
  destruct (cholesky _) as [e | L]; [discriminate|].
  destruct (solve_triangular L _ false) as [e | a] eqn:Ea; [discriminate|].
  intros E. injection E as <-. exists L, a. auto.
Qed.

Lemma factor_length (M L : Mat) :
  cholesky_contract cholesky ->
  cholesky M = inr L ->
  List.length L = List.length M.
Proof.
  intros Hchol EL. apply Hchol in EL.
  apply (f_equal (@List.length (list R))) in EL.
  unfold mmul_t in EL. now rewrite pairwise_length in EL.
Qed.

Lemma full_K_length (self : GP) (X : Points) :
  kernel_pairwise (_kern self) ->
  List.length (full_K self X) = List.length X.
Proof.
  intros [k [_ Hk]]. unfold full_K, add_diagonal.
  now rewrite add_diagonal_from_length, Hk, pairwise_length.
Qed.

Lemma residual_length (self : GP) (X : Points) (Y : Vec) :
  mean_rowwise (_mean self) ->
  List.length X = List.length Y ->
  List.length (residual self X Y) = List.length X.
Proof.
  intros [mu Hmu] E. unfold residual, vsub.
  rewrite map2_length, Hmu, length_map. lia.
Qed.

Lemma update_factor_raises (self s' : GP) (e : exn) :
  _update self = (inl e, s') ->
  cholesky (full_K self (data_X self)) = inl e ->
  s' = self.
Proof.
  unfold Models._update.
  destruct (0 <? ndata self)%nat; [|discriminate].
  fold (full_K self (data_X self)).
  intros E EL. rewrite EL in E. now injection E.
Qed.

Lemma updateinc_raises (self s' : GP) (X : Points) (Y : Vec) (e : exn) :
  _updateinc X Y self = (inl e, s') ->
  s' = self.
Proof.
  unfold Models._updateinc.
  destruct (_L self), (_a self); try (intros E; now injection E).
  destruct (cholesky_update _ _ _ _ _) as [e' | [L' a']]; [|discriminate].
  intros E. now injection E.
Qed.

Lemma updateinc_returns (self s' : GP) (X0 X : Points) (Y : Vec) (L : Mat) (a : Vec) :
  cholesky_contract cholesky ->
  cholesky_update_contract cholesky solve_triangular cholesky_update ->
  kernel_pairwise (_kern self) ->
  mean_rowwise (_mean self) ->
  _X self = Some X0 ->
  List.length X0 = List.length (data_Y self) ->
  _L self = Some L ->
  _a self = Some a ->
  mmul_t L L = full_K self X0 ->
  mvec L a = residual self X0 (data_Y self) ->
  _updateinc X Y self = (inr tt, s') ->
  exists L' a',
    cholesky (full_K self (X0 ++ X)) = inr L' /\
    solve_triangular L' (residual self (X0 ++ X) (data_Y self ++ Y)) false = inr a' /\
    s' = set_a (set_L self L') a'.
Proof.
  intros Hchol Hcu Hk [mu Hmu] HX Hpaired HL Ha HLL HLa.
  pose proof (full_K_length self X0 Hk) as Hlen.
  destruct Hk as [k [Hsym Hk]].
  unfold Models._updateinc. rewrite HL, Ha, HX.
  destruct (cholesky_update _ _ _ _ _) as [e | [L' a']] eqn:Ecu; [discriminate|].
  intros E. injection E as <-.
  apply Hcu in Ecu as [EL' Ea'].
  exists L', a'. split; [|split; [|reflexivity]].
  - rewrite <- EL'. f_equal.
    assert (HlenL : List.length L = List.length X0).
    { pose proof (f_equal (@List.length (list R)) HLL) as E.
      unfold mmul_t in E. rewrite pairwise_length in E.
      etransitivity; [exact E | exact Hlen]. }
    rewrite HLL, HlenL. unfold full_K.
    rewrite !Hk. cbn [Distances.other].
    rewrite (transpose_pairwise k X0 X Hsym).
    apply add_diagonal_pairwise_app.
  - rewrite <- Ea'. f_equal.
    rewrite HLa. unfold residual. rewrite !Hmu, map_app.
    apply vsub_app. now rewrite length_map.
Qed.

Lemma update_succeeds (self : GP) (L : Mat) (a : Vec) :
  (0 < ndata self)%nat ->
  cholesky (full_K self (data_X self)) = inr L ->
  solve_triangular L (residual self (data_X self) (data_Y self)) false = inr a ->
  _update self = (inr tt, set_a (set_L self L) a).
Proof.
  intros Hn EL Ea. unfold Models._update.
  destruct (Nat.ltb_spec 0 (ndata self)) as [_ | Hle]; [|lia].
  fold (full_K self (data_X self)). fold (residual self (data_X self) (data_Y self)).
  now rewrite EL, Ea.
Qed.

Lemma update_skips (self s' : GP) (out : result unit) :
  ndata self = 0%nat ->
  _update self = (out, s') ->
  out = inr tt /\ s' = self.
Proof.
  intros Hn. unfold Models._update. rewrite Hn. cbn.
  intros E. injection E as <- <-. auto.
Qed.

Lemma update_establishes (self s' : GP) :
  cholesky_contract cholesky ->
  (forall L b a, solve_triangular L b false = inr a -> mvec L a = b) ->
  (0 < ndata self)%nat ->
  _update self = (inr tt, s') ->
  cache_consistent s' /\ ndata s' = ndata self /\
  data_X s' = data_X self /\ data_Y s' = data_Y self /\
  _L s' <> None /\ _a s' <> None.
Proof.
  intros Hchol Hsolve Hn E.
  apply update_returns in E as (L & a & EL & Ea & ->); [|assumption].
  split; [|repeat split; discriminate].
  unfold cache_consistent.
  change (ndata (set_a (set_L self L) a)) with (ndata self).
  destruct (Nat.eqb_spec (ndata self) 0) as [E0 | _]; [lia|].
  exists L, a. repeat split.
  - exact (Hchol _ _ EL).
  - exact (Hsolve _ _ _ Ea).
Qed.

(** C1: for a training set split into a non-empty base batch (X0, Y0),
    inputs and targets paired, and an appended batch (X1, Y1): whenever
    [_update] on the base batch followed by [_updateinc] on the appended
    batch returns, one [_update] over the combined set returns too, with
    the same cache (L, a) and the same state.  The backend is assumed to
    meet its contracts, [cholesky_update]'s among them; the kernel
    evaluates a symmetric covariance on every pair of rows and the mean is
    evaluated row by row; reals stand for floats, so the two caches are
    equal and not only close. *)
Theorem incremental_refit_agrees (self s : GP) (X0 X1 : Points) (Y0 Y1 : Vec) :
  cholesky_contract cholesky ->
  solve_triangular_contract cholesky solve_triangular ->
  cholesky_update_contract cholesky solve_triangular cholesky_update ->
  kernel_pairwise (_kern self) ->
  mean_rowwise (_mean self) ->
  X0 <> [] ->
  List.length X0 = List.length Y0 ->
  refit_incremental cholesky solve_triangular cholesky_update self X0 X1 Y0 Y1 = (inr tt, s) ->
  refit_full cholesky solve_triangular self X0 X1 Y0 Y1 = (inr tt, s).
Proof.
  intros Hchol Hsolve Hcu Hk Hmu Hne Hlen.
  unfold refit_incremental, refit_full.
  destruct (_update (with_data self X0 Y0)) as [[e | []] s0] eqn:E0; [discriminate|].
  apply update_returns in E0 as (L0 & a0 & EL0 & Ea0 & ->);
    [|destruct X0; [contradiction | cbn; lia]].
  destruct (_updateinc X1 Y1 _) as [[e | []] s1] eqn:E1; [discriminate|].
  apply (updateinc_returns _ _ X0 X1 Y1 L0 a0) in E1 as (L' & a' & EL' & Ea' & ->);
    try assumption; try reflexivity.
  - intros E. injection E as <-.
    apply (update_succeeds (with_data self (X0 ++ X1) (Y0 ++ Y1)) L' a').
    + destruct X0; [contradiction | cbn; lia].
    + exact EL'.
    + exact Ea'.
  - exact (Hchol _ _ EL0).
  - destruct Hsolve as [Hsolve _]. exact (Hsolve _ _ _ Ea0).
Qed.

Lemma updateinc_preserves (s s' : GP) (X : Points) (Y : Vec) :
  cholesky_contract cholesky ->
  (forall L b a, solve_triangular L b false = inr a -> mvec L a = b) ->
  cholesky_update_contract cholesky solve_triangular cholesky_update ->
  kernel_pairwise (_kern s) ->
  mean_rowwise (_mean s) ->
  (0 < ndata s)%nat ->
  paired s ->
  cache_consistent s ->
  List.length X = List.length Y ->
  _updateinc X Y s = (inr tt, s') ->
  paired (append_data s' X Y) /\
  (_L (append_data s' X Y) <> None /\ _a (append_data s' X Y) <> None) /\
  cache_consistent (append_data s' X Y).
Proof.
  intros Hchol Hsolve Hcu Hk Hmu Hn Hp Hc Hlen E.
  unfold cache_consistent in Hc.
  destruct (Nat.eqb_spec (ndata s) 0) as [E0 | _]; [lia|].
  destruct Hc as (L & a & HL & Ha & HLL & HLa).
  assert (HX : _X s = Some (data_X s)).
  { unfold ndata in Hn. unfold data_X. destruct (_X s); [reflexivity | lia]. }
  apply (updateinc_returns _ _ (data_X s) X Y L a) in E
    as (L' & a' & EL' & Ea' & ->); try assumption; auto.
  split; [|split].
  - unfold paired in *. cbn. unfold data_X, data_Y in *. cbn.
    rewrite !length_app. rewrite Hp, Hlen. reflexivity.
  - cbn. split; discriminate.
  - unfold cache_consistent.
    assert (Hn' : ndata (append_data (set_a (set_L s L') a') X Y) <> 0%nat).
    { unfold ndata at 1. cbn [append_data _X]. rewrite length_app.
      unfold data_X. change (_X (set_a (set_L s L') a')) with (_X s).
      unfold ndata in Hn. destruct (_X s); cbn in *; lia. }
    destruct (Nat.eqb_spec (ndata (append_data (set_a (set_L s L') a') X Y)) 0)
      as [E0 | _]; [contradiction|].
    exists L', a'. repeat split.
    + exact (Hchol _ _ EL').
    + exact (Hsolve _ _ _ Ea').
Qed.

(** C7 (amended): in every state reached by constructing a model, resetting
    or discarding its data, attaching data incrementally and changing
    hyperparameters, through calls that return, inputs and targets are
    paired, [L] is [None] exactly when [a] is, and whenever ndata > 0 they
    are set and satisfy L L' = K(X,X) + noise I and L a = Y - mean(X) for
    the current data.  The two operations re-establish this: an [_update]
    that returns on a model with data leaves such a cache for the model's
    data whatever the cache was before, also a stale one, and an
    [_updateinc] that returns on a model with such a cache leaves one for
    the data with the new points appended.  [_update] skips the cache when
    ndata is 0 and returns the model as it found it: the cache of a new
    model stays [None], and one left by data since discarded is not reset.
    A refit whose factorization raises, and an [_updateinc] that raises,
    leave the model, [L] and [a] among the rest, as they found it.  The
    factorization is assumed to return factors, the solver solutions, and
    [cholesky_update] to meet its contract; the kernels evaluate a
    symmetric covariance on every pair of rows and the means are evaluated
    row by row. *)
Theorem cache_invariant (s : GP) :
  cholesky_contract cholesky ->
  (forall L b a, solve_triangular L b false = inr a -> mvec L a = b) ->
  cholesky_update_contract cholesky solve_triangular cholesky_update ->
  (forall kern : KernT, kernel_pairwise kern) ->
  (forall mean : MeanT, mean_rowwise mean) ->
  reachable cholesky solve_triangular cholesky_update s ->
  (paired s /\ (_L s = None <-> _a s = None) /\
   ((0 < ndata s)%nat -> cache_consistent s)) /\
  (forall t t' : GP,
      (0 < ndata t)%nat -> _update t = (inr tt, t') ->
      cache_consistent t' /\ data_X t' = data_X t /\ data_Y t' = data_Y t) /\
  (forall (t t' : GP) (X : Points) (Y : Vec),
      (0 < ndata t)%nat -> paired t -> cache_consistent t ->
      List.length X = List.length Y ->
      _updateinc X Y t = (inr tt, t') ->
      cache_consistent (append_data t' X Y)) /\
  (forall t : GP, ndata t = 0%nat -> _update t = (inr tt, t)) /\
  (forall (t t' : GP) (e : exn),
      _update t = (inl e, t') -> cholesky (full_K t (data_X t)) = inl e -> t' = t) /\
  (forall (t t' : GP) (X : Points) (Y : Vec) (e : exn),
      _updateinc X Y t = (inl e, t') -> t' = t).
Proof.
  intros Hchol Hsolve Hcu Hk Hmu Hreach.
  split; [|split; [|split; [|split; [|split]]]].
  - induction Hreach as [like kern mean
                        | s s' X Y _ (IHp & IHn & IHc) Hlen E
                        | s s' X Y _ (IHp & IHn & IHc) Hn Hlen E
                        | s s' like kern mean _ (IHp & IHn & IHc) E].
    + split; [reflexivity|]. split; [tauto|]. cbn. lia.
    + destruct X as [|x X].
      * apply update_skips in E as [_ ->]; [|reflexivity].
        split; [exact Hlen|]. split; [exact IHn|]. cbn. lia.
      * apply update_establishes in E as (Hc & En & EX & EY & HL & Ha);
          try assumption; [|cbn; lia].
        split; [unfold paired; rewrite EX, EY; exact Hlen|].
        split; [tauto | intros _; exact Hc].
    + destruct (updateinc_preserves s s' X Y Hchol Hsolve Hcu (Hk _) (Hmu _)
                  Hn IHp (IHc Hn) Hlen E) as (Hp & [HL Ha] & Hc).
      split; [exact Hp|]. split; [tauto | intros _; exact Hc].
    + destruct (Nat.eq_dec (ndata s) 0) as [E0 | Hpos].
      * apply update_skips in E as [_ ->]; [|exact E0].
        split; [exact IHp|]. split; [exact IHn|].
        change (ndata (with_params s like kern mean)) with (ndata s). lia.
      * apply update_establishes in E as (Hc & En & EX & EY & HL & Ha); try assumption.
        -- split; [unfold paired; rewrite EX, EY; exact IHp|].
           split; [tauto | intros _; exact Hc].
        -- change (ndata (with_params s like kern mean)) with (ndata s). lia.
  - intros t t' Hn E.
    apply update_establishes in E as (Hc & _ & EX & EY & _); auto.
  - intros t t' X Y Hn Hp Hc Hlen E.
    exact (proj2 (proj2 (updateinc_preserves t t' X Y Hchol Hsolve Hcu (Hk _) (Hmu _)
                           Hn Hp Hc Hlen E))).
  - intros t Hn. unfold Models._update. rewrite Hn. reflexivity.
  - intros t t' e E EL. exact (update_factor_raises t t' e E EL).
  - intros t t' X Y e E. exact (updateinc_raises t t' X Y e E).
Qed.

End RefitProperties.

(** ** The reference backend meets the contracts *)

Lemma small_cholesky_1 (a : R) :
  0 < a -> SmallBackend.cholesky [[a]] = inr [[sqrt a]].
Proof.
  intros Ha. unfold SmallBackend.cholesky.
  destruct (Rlt_dec 0 a); [reflexivity | contradiction].
Qed.

Lemma small_cholesky_2 (a c d : R) :
  0 < a -> 0 < d - c * c / a ->
  SmallBackend.cholesky [[a; c]; [c; d]] =
    inr [[sqrt a; 0]; [c / sqrt a; sqrt (d - c * c / a)]].
Proof.
  intros Ha He. unfold SmallBackend.cholesky.
  destruct (Rlt_dec 0 a); [|contradiction].
  destruct (Req_dec_T c c); [|congruence].
  destruct (Rlt_dec 0 (d - c * c / a)); [reflexivity | contradiction].
Qed.

Lemma small_solve_1 (l x : R) :
  l <> 0 -> SmallBackend.solve_triangular [[l]] [x] false = inr [x / l].
Proof.
  intros Hl. unfold SmallBackend.solve_triangular.
  destruct (Req_dec_T l 0); [contradiction | reflexivity].
Qed.

Lemma small_solve_2 (l11 l21 l22 x y : R) :
  l11 <> 0 -> l22 <> 0 ->
  SmallBackend.solve_triangular [[l11; 0]; [l21; l22]] [x; y] false =
    inr [x / l11; (y - l21 * (x / l11)) / l22].
Proof.
  intros H1 H2. unfold SmallBackend.solve_triangular.
  destruct (Req_dec_T l11 0); [contradiction|].
  destruct (Req_dec_T l22 0); [contradiction|].
  destruct (Req_dec_T 0 0); [reflexivity | congruence].
Qed.

Lemma small_cholesky_shape (M L : Mat) :
  SmallBackend.cholesky M = inr L ->
  (exists a, 0 < a /\ M = [[a]] /\ L = [[sqrt a]]) \/
  (exists a c d, 0 < a /\ 0 < d - c * c / a /\ M = [[a; c]; [c; d]] /\
                 L = [[sqrt a; 0]; [c / sqrt a; sqrt (d - c * c / a)]]).
Proof.
  unfold SmallBackend.cholesky.
  destruct M as [|[|a [|b [|? ?]]] [|[|c [|d [|? ?]]] [|? ?]]]; try discriminate.
  - destruct (Rlt_dec 0 a); [|discriminate].
    intros E. injection E as <-. left. exists a. auto.
  - destruct (Rlt_dec 0 a); [|discriminate].
    destruct (Req_dec_T b c) as [-> |]; [|discriminate].
    destruct (Rlt_dec 0 (d - c * c / a)); [|discriminate].
    intros E. injection E as <-. right. exists a, c, d. auto.
Qed.

Lemma small_cholesky_contract : cholesky_contract SmallBackend.cholesky.
Proof.
  intros M L E.
  apply small_cholesky_shape in E
    as [(a & Ha & -> & ->) | (a & c & d & Ha & He & -> & ->)].
  - unfold mmul_t, pairwise, dot. cbn.
    rewrite sqrt_sqrt by lra. do 2 f_equal. lra.
  - pose proof (sqrt_lt_R0 a Ha) as Hs.
    pose proof (sqrt_sqrt a (Rlt_le _ _ Ha)) as Hss.
    pose proof (sqrt_sqrt _ (Rlt_le _ _ He)) as Htt.
    unfold mmul_t, pairwise, dot. cbn.
    set (s := sqrt a) in *. set (t := sqrt (d - c * c / a)) in *.
    assert (E1 : s * s + (0 * 0 + 0) = a) by lra.
    assert (E2 : s * (c / s) + (0 * t + 0) = c) by (field; lra).
    assert (E3 : c / s * s + (t * 0 + 0) = c) by (field; lra).
    assert (E4 : c / s * (c / s) + (t * t + 0) = d).
    { rewrite Htt. rewrite <- Hss. field. lra. }
    now rewrite E1, E2, E3, E4.
Qed.

Lemma small_solve_contract :
  solve_triangular_contract SmallBackend.cholesky SmallBackend.solve_triangular.
Proof.
  split.
  - intros L b a. unfold SmallBackend.solve_triangular.
    destruct L as [|[|l11 [|l12 [|? ?]]] [|[|l21 [|l22 [|? ?]]] [|? ?]]]; try discriminate;
      destruct b as [|x [|y [|? ?]]]; try discriminate.
    + destruct (Req_dec_T l11 0); [discriminate|].
      intros E. injection E as <-. unfold mvec, dot. cbn.
      f_equal. field. lra.
    + destruct (Req_dec_T l11 0); [discriminate|].
      destruct (Req_dec_T l22 0); [discriminate|].
      destruct (Req_dec_T l12 0) as [-> |]; [|discriminate].
      intros E. injection E as <-. unfold mvec, dot. cbn.
      f_equal; [field; lra|]. f_equal. field. lra.
  - intros M L b E Hlen.
    apply small_cholesky_shape in E
      as [(a & Ha & -> & ->) | (a & c & d & Ha & He & -> & ->)].
    + destruct b as [|x [|? ?]]; try discriminate.
      eexists. apply small_solve_1.
      pose proof (sqrt_lt_R0 a Ha). lra.
    + destruct b as [|x [|y [|? ?]]]; try discriminate.
      eexists. apply small_solve_2.
      * pose proof (sqrt_lt_R0 a Ha). lra.
      * pose proof (sqrt_lt_R0 _ He). lra.
Qed.

Lemma small_cholesky_update_contract :
  cholesky_update_contract SmallBackend.cholesky SmallBackend.solve_triangular
    SmallBackend.cholesky_update.
Proof.
  intros L B C a r L' a'. unfold SmallBackend.cholesky_update, bind, ret.
  destruct (SmallBackend.cholesky _) as [e | L1]; [discriminate|].
  destruct (SmallBackend.solve_triangular L1 _ false) as [e | a1] eqn:Ea; [discriminate|].
  intros E. injection E as <- <-. auto.
Qed.

(** ** The Matern kernel is pairwise and symmetric; the constant mean is
    row-wise *)

Lemma euclidean_sym (u v : Vec) : Distances.euclidean u v = Distances.euclidean v u.
Proof.
  unfold Distances.euclidean, Distances.norm2. do 2 f_equal.
  revert v. induction u as [|a u IH]; intros [|b v]; cbn; try reflexivity.
  f_equal; [ring | apply IH].
Qed.

Lemma matern_pairwise (dist_foreach : Points -> option Points -> list Mat) (kern : Matern.t) :
  @kernel_pairwise _ (Matern_Kernel dist_foreach) kern.
Proof.
  exists (fun x y =>
            let D := Distances.euclidean (Distances.div_ell (Matern._ell kern) x)
                                         (Distances.div_ell (Matern._ell kern) y) in
            Matern._rho kern * exp (- D) * Matern._f kern D).
  split.
  - intros x y. cbn. now rewrite euclidean_sym.
  - intros X1 X2. cbn. unfold Matern.get_kernel, Distances.rescale, Distances.dist.
    unfold mat_map, pairwise. rewrite !map_map.
    apply map_ext. intros x. rewrite map_map.
    destruct X2 as [X2|]; cbn; rewrite map_map; reflexivity.
Qed.

Lemma constant_rowwise (mean : Constant) : mean_rowwise mean.
Proof.
  exists (fun _ => bias mean). intros X. cbn.
  induction X as [|x X IH]; cbn; [reflexivity | now rewrite IH].
Qed.

(** ** A run on two training points *)

Lemma k00_pos : 0 < EngineExamples.k00.
Proof.
  unfold EngineExamples.k00. pose proof (exp_pos (- Distances.euclidean [0 / 1] [0 / 1])). lra.
Qed.

(** C10 (instance): the prior at the point 0 under unit noise, with the
    counting generator started at 3: [latent=0] is sampled like
    [latent=True], from the draw at state 3 alone; [latent=False] adds the
    draw at state 4. *)
Lemma sample_falsy_latent_noise_free_example :
  sample SmallBackend.cholesky (fun _ _ => SmallBackend.unsupported)
    nat CountingRandom.normal CountingRandom.rstate
    EngineExamples.gp_empty [[0]] None (PyInt 0) RngNone 3%nat =
  sample SmallBackend.cholesky (fun _ _ => SmallBackend.unsupported)
    nat CountingRandom.normal CountingRandom.rstate
    EngineExamples.gp_empty [[0]] None (PyBool true) RngNone 3%nat /\
  sample SmallBackend.cholesky (fun _ _ => SmallBackend.unsupported)
    nat CountingRandom.normal CountingRandom.rstate
    EngineExamples.gp_empty [[0]] None (PyInt 0) RngNone 3%nat =
    (inr (Flat [0 + (1 * INR 3 * sqrt (EngineExamples.k00 + 1e-10) + 0)]), 4%nat) /\
  sample SmallBackend.cholesky (fun _ _ => SmallBackend.unsupported)
    nat CountingRandom.normal CountingRandom.rstate
    EngineExamples.gp_empty [[0]] None (PyBool false) RngNone 3%nat =
    (inr (Flat [0 + (1 * INR 3 * sqrt (EngineExamples.k00 + 1e-10) + 0)
                + sqrt 1 * INR 4]), 5%nat).
Proof.
  destruct (sample_falsy_latent_noise_free SmallBackend.cholesky
              (fun _ _ => SmallBackend.unsupported) nat CountingRandom.normal
              CountingRandom.rstate EngineExamples.gp_empty [[0]] None (PyInt 0)
              RngNone 3%nat) as [Htrue Hform].
  { discriminate. }
  split; [exact Htrue|].
  apply (Hform [0] [[EngineExamples.k00]] [[sqrt (EngineExamples.k00 + 1e-10)]]).
  - reflexivity.
  - change (SmallBackend.cholesky [[EngineExamples.k00 + 1e-10]] =
              inr [[sqrt (EngineExamples.k00 + 1e-10)]]).
    apply small_cholesky_1. pose proof k00_pos. lra.
Defined.

Lemma example_attach :
  _update SmallBackend.cholesky SmallBackend.solve_triangular
    (with_data EngineExamples.gp_empty [[0]] [1]) = (inr tt, EngineExamples.gp_attached).
Proof.
  pose proof k00_pos as Hk.
  apply update_succeeds.
  - cbn. lia.
  - change (SmallBackend.cholesky [[EngineExamples.k00 + 1]] = inr [[sqrt (EngineExamples.k00 + 1)]]).
    apply small_cholesky_1. lra.
  - change (SmallBackend.solve_triangular [[sqrt (EngineExamples.k00 + 1)]] [1 - 0] false =
              inr [(1 - 0) / sqrt (EngineExamples.k00 + 1)]).
    apply small_solve_1.
    assert (0 < sqrt (EngineExamples.k00 + 1)) by (apply sqrt_lt_R0; lra). lra.
Qed.

Lemma updateinc_succeeds {LikeT KernT MeanT : Type}
    `{Likelihoods.Likelihood LikeT} `{Kernels.Kernel KernT} `{Functions.Function MeanT}
    (cholesky_update : Mat -> Mat -> Mat -> Vec -> Vec -> result (Mat * Vec))
    (self : Models.GP LikeT KernT MeanT) (X : Points) (Y : Vec)
    (L L' : Mat) (a a' : Vec) :
  _L self = Some L ->
  _a self = Some a ->
  cholesky_update L (Kernels.get_kernel (_kern self) X (_X self)) (full_K self X) a
                  (residual self X Y) = inr (L', a') ->
  _updateinc cholesky_update X Y self = (inr tt, set_a (set_L self L') a').
Proof.
  intros HL Ha E. unfold _updateinc. rewrite HL, Ha.
  unfold full_K, residual in E. now rewrite E.
Qed.

Lemma exp_neg_le_1 (d : R) : 0 <= d -> exp (- d) <= 1.
Proof.
  intros [Hd | <-].
  - left. rewrite <- exp_0. apply exp_increasing. lra.
  - rewrite Ropp_0, exp_0. lra.
Qed.

Lemma k10_bounds : 0 < EngineExamples.k10 <= 1.
Proof.
  unfold EngineExamples.k10.
  pose proof (exp_pos (- Distances.euclidean [1 / 1] [0 / 1])).
  pose proof (exp_neg_le_1 (Distances.euclidean [1 / 1] [0 / 1]) (sqrt_pos _)).
  lra.
Qed.

Lemma k11_pos : 0 < EngineExamples.k11.
Proof.
  unfold EngineExamples.k11.
  pose proof (exp_pos (- Distances.euclidean [1 / 1] [1 / 1])). lra.
Qed.

Lemma example_attach_inc :
  exists s,
    _updateinc SmallBackend.cholesky_update [[1]] [0] EngineExamples.gp_attached = (inr tt, s).
Proof.
  pose proof k00_pos as Hk. pose proof k10_bounds as Hk10. pose proof k11_pos as Hk11.
  assert (Hl : 0 < sqrt (EngineExamples.k00 + 1)) by (apply sqrt_lt_R0; lra).
  assert (Hll : sqrt (EngineExamples.k00 + 1) * sqrt (EngineExamples.k00 + 1) =
                EngineExamples.k00 + 1) by (apply sqrt_sqrt; lra).
  set (l := sqrt (EngineExamples.k00 + 1)) in *.
  assert (Ha : 0 < l * l + 0) by lra.
  assert (He : 0 < EngineExamples.k11 + 1
                   - EngineExamples.k10 * EngineExamples.k10 / (l * l + 0)).
  { replace (l * l + 0) with (EngineExamples.k00 + 1) by lra.
    replace (EngineExamples.k11 + 1
             - EngineExamples.k10 * EngineExamples.k10 / (EngineExamples.k00 + 1))
      with (((EngineExamples.k11 + 1) * (EngineExamples.k00 + 1)
             - EngineExamples.k10 * EngineExamples.k10) / (EngineExamples.k00 + 1))
      by (field; lra).
    apply Rdiv_lt_0_compat; nra. }
  eexists.
  eapply updateinc_succeeds with (L := [[l]]) (a := [(1 - 0) / l]);
    [reflexivity | reflexivity |].
  unfold SmallBackend.cholesky_update.
  change (block _ _ _ _)
    with [[l * l + 0; EngineExamples.k10]; [EngineExamples.k10; EngineExamples.k11 + 1]].
  rewrite (small_cholesky_2 _ _ _ Ha He). cbn [bind].
  change (mvec [[l]] [(1 - 0) / l] ++ residual EngineExamples.gp_attached [[1]] [0])
    with [l * ((1 - 0) / l) + 0; 0 - 0].
  rewrite small_solve_2.
  - reflexivity.
  - assert (0 < sqrt (l * l + 0)) by (apply sqrt_lt_R0; lra). lra.
  - assert (0 < sqrt (EngineExamples.k11 + 1
                      - EngineExamples.k10 * EngineExamples.k10 / (l * l + 0)))
      by (apply sqrt_lt_R0; lra).
    lra.
Qed.

(** C1 (instance): the point (0, 1) as base batch and the point (1, 0)
    appended, under a Matern-1 kernel with unit noise, on the reference
    backend. *)
Lemma incremental_refit_agrees_example :
  exists s,
    refit_incremental SmallBackend.cholesky SmallBackend.solve_triangular
      SmallBackend.cholesky_update EngineExamples.gp_empty [[0]] [[1]] [1] [0] = (inr tt, s) /\
    refit_full SmallBackend.cholesky SmallBackend.solve_triangular
      EngineExamples.gp_empty [[0]] [[1]] [1] [0] = (inr tt, s).
Proof.
  destruct example_attach_inc as [s2 E2].
  assert (Einc : refit_incremental SmallBackend.cholesky SmallBackend.solve_triangular
                   SmallBackend.cholesky_update EngineExamples.gp_empty [[0]] [[1]] [1] [0] =
                 (inr tt, append_data s2 [[1]] [0])).
  { unfold refit_incremental. rewrite example_attach, E2. reflexivity. }
  exists (append_data s2 [[1]] [0]). split; [exact Einc|].
  apply (incremental_refit_agrees SmallBackend.cholesky SmallBackend.solve_triangular
           SmallBackend.cholesky_update EngineExamples.gp_empty _ [[0]] [[1]] [1] [0]).
  - exact small_cholesky_contract.
  - exact small_solve_contract.
  - exact small_cholesky_update_contract.
  - apply matern_pairwise.
  - apply constant_rowwise.
  - discriminate.
  - reflexivity.
  - exact Einc.
Defined.

(** C7 (counterexample): the model fitted to the point (0, 1) whose data
    are then discarded: the reset to an empty training set returns, the
    model has no data, and [L] is still the factor of the discarded point,
    not [None]. *)
Lemma discarded_data_keep_cache :
  reachable SmallBackend.cholesky SmallBackend.solve_triangular
    SmallBackend.cholesky_update (with_data EngineExamples.gp_attached [] []) /\
  ndata (with_data EngineExamples.gp_attached [] []) = 0%nat /\
  _L (with_data EngineExamples.gp_attached [] []) =
    Some [[sqrt (EngineExamples.k00 + 1)]] /\
  ~ cache_consistent (with_data EngineExamples.gp_attached [] []).
Proof.
  split; [|split; [reflexivity | split; [reflexivity|]]].
  - apply (reach_reset _ _ _ EngineExamples.gp_attached _ [] []).
    + apply (reach_reset _ _ _ EngineExamples.gp_empty EngineExamples.gp_attached [[0]] [1]).
      * apply reach_init.
      * reflexivity.
      * exact example_attach.
    + reflexivity.
    + reflexivity.
  - unfold cache_consistent.
    change (ndata (with_data EngineExamples.gp_attached [] []) =? 0)%nat with true.
    intros [HL _]. discriminate HL.
Qed.

(** C7 (instance): the state reached by attaching the point (0, 1) and then,
    incrementally, the point (1, 0). *)
Lemma cache_invariant_example :
  exists s : Models.GP Gaussian Matern.t Constant,
    ndata s = 2%nat /\ paired s /\ (_L s = None <-> _a s = None) /\ cache_consistent s.
Proof.
  destruct example_attach_inc as [s2 E2].
  exists (append_data s2 [[1]] [0]).
  assert (Hreach : reachable SmallBackend.cholesky SmallBackend.solve_triangular
                     SmallBackend.cholesky_update (append_data s2 [[1]] [0])).
  { apply (reach_attach_inc _ _ _ EngineExamples.gp_attached s2 [[1]] [0]).
    - apply (reach_reset _ _ _ EngineExamples.gp_empty EngineExamples.gp_attached [[0]] [1]).
      + apply reach_init.
      + reflexivity.
      + exact example_attach.
    - cbn. lia.
    - reflexivity.
    - exact E2. }
  assert (Hn : ndata (append_data s2 [[1]] [0]) = 2%nat).
  { unfold _updateinc in E2. cbn in E2.
    destruct (SmallBackend.cholesky_update _ _ _ _ _) as [e | [L' a']]; [discriminate|].
    injection E2 as <-. reflexivity. }
  split; [exact Hn|].
  destruct (proj1 (cache_invariant SmallBackend.cholesky SmallBackend.solve_triangular
                     SmallBackend.cholesky_update _
                     small_cholesky_contract (proj1 small_solve_contract)
                     small_cholesky_update_contract
                     (matern_pairwise sq_dist_foreach) constant_rowwise Hreach))
    as (Hp & Hboth & Hc).
  split; [exact Hp|]. split; [exact Hboth|].
  apply Hc. rewrite Hn. lia.
Defined.

(** * Further properties *)

(** ** More on the Matern kernel *)

Lemma sum_squares_self (x : Vec) :
  vsum (map (fun t => t ^ 2) (map2 Rminus x x)) = 0.
Proof.
  induction x as [|a x IH]; [reflexivity|].
  change (vsum (map (fun t => t ^ 2) (map2 Rminus (a :: x) (a :: x))))
    with ((a - a) ^ 2 + vsum (map (fun t => t ^ 2) (map2 Rminus x x))).
  rewrite IH. ring.
Qed.

Lemma euclidean_self (x : Vec) : Distances.euclidean x x = 0.
Proof.
  unfold Distances.euclidean, Distances.norm2.
  rewrite sum_squares_self. apply sqrt_0.
Qed.

Lemma f_at_zero (self : Matern.t) : Matern._f self 0 = 1.
Proof.
  unfold Matern._f.
  destruct (Matern._d self =? 1)%Z; [reflexivity|].
  destruct (Matern._d self =? 3)%Z; [lra | unfold Rdiv; ring].
Qed.

Lemma diagonal_from_pairwise (f : Vec -> Vec -> R) (pre X : Points) :
  diagonal_from (List.length pre) (map (fun x => map (f x) (pre ++ X)) X) =
    map (fun x => f x x) X.
Proof.
  revert pre. induction X as [|x X IH]; intros pre; cbn; [reflexivity|].
  rewrite nth_error_map, nth_error_app2 by lia.
  rewrite Nat.sub_diag. cbn. f_equal.
  specialize (IH (pre ++ [x])).
  rewrite length_app in IH. cbn in IH. rewrite Nat.add_1_r in IH.
  rewrite <- IH.
  f_equal. apply map_ext. intros y. now rewrite <- app_assoc.
Qed.

Lemma diagonal_pairwise (f : Vec -> Vec -> R) (X : Points) :
  diagonal (pairwise f X X) = map (fun x => f x x) X.
Proof. exact (diagonal_from_pairwise f [] X). Qed.

Lemma map_const_repeat {A B} (b : B) (l : list A) :
  map (fun _ => b) l = repeat b (List.length l).
Proof. induction l as [|a l IH]; cbn; [reflexivity | now rewrite IH]. Qed.

Lemma get_kernel_pairwise (self : Matern.t) (X1 : Points) (X2 : option Points) :
  Matern.get_kernel self X1 X2 =
    pairwise (fun x y =>
                let D := Distances.euclidean (Distances.div_ell (Matern._ell self) x)
                                             (Distances.div_ell (Matern._ell self) y) in
                Matern._rho self * exp (- D) * Matern._f self D)
             X1 (Distances.other X1 X2).
Proof.
  unfold Matern.get_kernel, Distances.rescale, Distances.dist, mat_map, pairwise.
  rewrite !map_map. apply map_ext. intros x. rewrite map_map.
  destruct X2 as [X2|]; cbn; rewrite map_map; reflexivity.
Qed.

Lemma get_kernel_diagonal (self : Matern.t) (X : Points) :
  diagonal (Matern.get_kernel self X None) = repeat (Matern._rho self) (List.length X).
Proof.
  rewrite get_kernel_pairwise. cbn [Distances.other].
  rewrite diagonal_pairwise.
  rewrite <- map_const_repeat. apply map_ext. intros x. cbv zeta.
  rewrite euclidean_self, Ropp_0, exp_0, f_at_zero. ring.
Qed.

(** X1: [get_dkernel] agrees with [get_kernel]: the vector it returns is the
    diagonal of the self-covariance [get_kernel(X)], every entry being
    [rho]. *)
Theorem matern_dkernel_is_diagonal (self : Matern.t) (X : Points) :
  diagonal (Matern.get_kernel self X None) = Matern.get_dkernel self X.
Proof. apply get_kernel_diagonal. Qed.

(** X2: the kernel is symmetric in its arguments: the cross-covariance of
    [X1] against [X2], transposed, is that of [X2] against [X1]. *)
Theorem matern_kernel_transpose (self : Matern.t) (X1 X2 : Points) :
  transpose_cols (List.length X2) (Matern.get_kernel self X1 (Some X2)) =
    Matern.get_kernel self X2 (Some X1).
Proof.
  rewrite !get_kernel_pairwise. cbn [Distances.other].
  apply transpose_pairwise. intros x y. cbv zeta. now rewrite euclidean_sym.
Qed.

Lemma map2_map_same {A B C D} (h : B -> C -> D) (g1 : A -> B) (g2 : A -> C) (l : list A) :
  map2 h (map g1 l) (map g2 l) = map (fun a => h (g1 a) (g2 a)) l.
Proof. induction l as [|a l IH]; cbn; [reflexivity | now rewrite IH]. Qed.

Lemma mat_map2_same {A B C D} (h : B -> C -> D) (g1 : A -> B) (g2 : A -> C)
    (M : list (list A)) :
  mat_map2 h (mat_map g1 M) (mat_map g2 M) = mat_map (fun a => h (g1 a) (g2 a)) M.
Proof.
  unfold mat_map2, mat_map. rewrite map2_map_same.
  apply map_ext. intros row. apply map2_map_same.
Qed.

Lemma mat_map_id {A} (M : list (list A)) : mat_map (fun a => a) M = M.
Proof.
  unfold mat_map. rewrite <- (map_id M) at 2.
  apply map_ext. intros row. apply map_id.
Qed.

Lemma mat_map_map {A B C} (g : B -> C) (f : A -> B) (M : list (list A)) :
  mat_map g (mat_map f M) = mat_map (fun a => g (f a)) M.
Proof. unfold mat_map. rewrite map_map. apply map_ext. intros row. apply map_map. Qed.

Lemma mat_map_pairwise {A B} (g : A -> B) (f : Vec -> Vec -> A) (X Y : Points) :
  mat_map g (pairwise f X Y) = pairwise (fun x y => g (f x y)) X Y.
Proof.
  unfold mat_map, pairwise. rewrite map_map. apply map_ext. intros x. apply map_map.
Qed.

Lemma mat_map_ext {A B} (f g : A -> B) (M : list (list A)) :
  (forall a, f a = g a) -> mat_map f M = mat_map g M.
Proof. intros E. unfold mat_map. apply map_ext. intros row. now apply map_ext. Qed.

(** The matrices [get_grad] builds before it yields. *)
Lemma grad_S (self : Matern.t) (D : Mat) :
  mat_map2 Rmult (mat_map (fun r => exp (- r)) D) (mat_map (Matern._f self) D) =
    mat_map (fun r => exp (- r) * Matern._f self r) D.
Proof. apply mat_map2_same. Qed.

Lemma grad_M (self : Matern.t) (D : Mat) :
  mat_map2 Rmult (mat_map (Rmult (Matern._rho self)) (mat_map (fun r => exp (- r)) D))
                 (mat_map (Matern._g self) D) =
    mat_map (fun r => Matern._rho self * exp (- r) * Matern._g self r) D.
Proof. rewrite mat_map_map. apply mat_map2_same. Qed.

Lemma get_grad_head (dist_foreach : Points -> option Points -> list Mat)
    (self : Matern.t) (X1 : Points) (X2 : option Points) :
  exists rest,
    items (Matern.get_grad dist_foreach self X1 X2) =
      mat_map Some (mat_map (fun r => exp (- r) * Matern._f self r)
                            (rescaled_dist self X1 X2)) :: rest.
Proof.
  unfold Matern.get_grad, rescaled_dist, Distances.rescale.
  rewrite grad_S.
  destruct (Matern._iso self), (Matern._ell self); cbn; try (eexists; reflexivity).
  destruct (dist_foreach _ _); eexists; reflexivity.
Qed.

(** X4: the first matrix [get_grad] yields, the derivative with respect to
    [rho], multiplied by [rho] is the kernel matrix [get_kernel] returns,
    in isotropic and ARD mode alike. *)
Theorem matern_grad_rho_scales_to_kernel
    (dist_foreach : Points -> option Points -> list Mat)
    (self : Matern.t) (X1 : Points) (X2 : option Points) :
  exists S rest,
    items (Matern.get_grad dist_foreach self X1 X2) = S :: rest /\
    mat_map (fmap (Rmult (Matern._rho self))) S =
      mat_map Some (Matern.get_kernel self X1 X2).
Proof.
  destruct (get_grad_head dist_foreach self X1 X2) as [rest E].
  eexists _, rest. split; [exact E|].
  rewrite !mat_map_map. unfold Matern.get_kernel, rescaled_dist, Distances.rescale.
  rewrite mat_map_map. apply mat_map_ext. intros r. cbn. f_equal. ring.
Qed.

Lemma ard_loop_count (M D : Mat) (ell : list R) (Ds : list Mat) (i : nat) :
  List.length (items (Matern.ard_loop M D ell i Ds)) =
    Nat.min (List.length Ds) (List.length ell - i) /\
  (raised (Matern.ard_loop M D ell i Ds) = None <->
   (i + List.length Ds <= List.length ell)%nat \/ Ds = []) /\
  (forall e, raised (Matern.ard_loop M D ell i Ds) = Some e ->
             e = IndexError "index out of bounds").
Proof.
  revert i. induction Ds as [|D_ rest IH]; intros i;
    cbn [Matern.ard_loop items raised List.length].
  - repeat split; auto. discriminate.
  - destruct (nth_error ell i) as [l|] eqn:E; cbn [items raised List.length].
    + assert (Hi : (i < List.length ell)%nat) by (apply nth_error_Some; congruence).
      destruct (IH (S i)) as (IHn & IHr & IHe).
      split; [rewrite IHn; lia|]. split; [|exact IHe].
      rewrite IHr. split.
      * intros [Hle | ->]; left; cbn; lia.
      * intros [Hle | Habs]; [|discriminate].
        left. lia.
    + apply nth_error_None in E.
      split; [lia|]. split.
      * split; [discriminate|]. intros [Hle | Habs]; [lia | discriminate].
      * intros e Ee. now injection Ee as <-.
Qed.

(** X5: in ARD mode [get_grad] yields the [rho] derivative and then one
    matrix per coordinate distance that [dist_foreach] supplies, as long as
    the length scales last: with at most as many distances as length
    scales the generator ends normally; with more, it stops in an IndexError
    once the length scales run out. *)
Theorem matern_ard_grad_count
    (dist_foreach : Points -> option Points -> list Mat)
    (self : Matern.t) (X1 : Points) (X2 : option Points) (l : list R) :
  Matern._iso self = false ->
  Matern._ell self = Distances.EllVector l ->
  let Ds := dist_foreach (map (Distances.div_ell (Matern._ell self)) X1)
                         (option_map (map (Distances.div_ell (Matern._ell self))) X2) in
  let g := Matern.get_grad dist_foreach self X1 X2 in
  List.length (items g) = S (Nat.min (List.length Ds) (List.length l)) /\
  ((List.length Ds <= List.length l)%nat -> raised g = None) /\
  ((List.length l < List.length Ds)%nat ->
   raised g = Some (IndexError "index out of bounds")).
Proof.
  intros Hiso Hell Ds g. subst g Ds.
  unfold Matern.get_grad, Distances.rescale. rewrite Hiso, Hell. cbn [items raised].
  set (Ds := dist_foreach _ _).
  match goal with |- context [Matern.ard_loop ?M ?D l 0 Ds] =>
    destruct (ard_loop_count M D l Ds 0) as (Hn & Hr & He);
    set (g := Matern.ard_loop M D l 0 Ds) in *
  end.
  split; [cbn; rewrite Hn; f_equal; lia|]. split.
  - intros Hle. apply Hr. left. lia.
  - intros Hlt. destruct (raised g) as [e|] eqn:E.
    + f_equal. now apply He.
    + destruct (proj1 Hr eq_refl) as [Hle | Hnil]; [lia|].
      rewrite Hnil in Hlt. cbn in Hlt. lia.
Qed.

(** X5 (instance): one input dimension and one length scale: two matrices, no exception. *)
Lemma matern_ard_grad_count_example :
  List.length (items (Matern.get_grad sq_dist_foreach Examples.k_ard3 [[0]; [1]] None)) = 2%nat /\
  raised (Matern.get_grad sq_dist_foreach Examples.k_ard3 [[0]; [1]] None) = None.
Proof.
  destruct (matern_ard_grad_count sq_dist_foreach Examples.k_ard3 [[0]; [1]] None [1]
              eq_refl eq_refl) as (Hn & Hr & _).
  split; [exact Hn|].
  apply Hr. cbn. lia.
Defined.

Lemma fdiagonal_from_Some (M : Mat) (i : nat) :
  fdiagonal_from i (mat_map Some M) = map Some (diagonal_from i M).
Proof.
  revert i. induction M as [|row M IH]; intros i; cbn; [reflexivity|].
  rewrite nth_error_map. destruct (nth_error row i); cbn; [|reflexivity].
  now rewrite <- IH.
Qed.

Lemma g_times_zero (self : Matern.t) (l : R) :
  Matern._rho self * exp (- 0) * Matern._g self 0 * 0 / l = 0.
Proof. unfold Rdiv. ring. Qed.

Lemma map2_map_l {A B C} (h : B -> A -> C) (g : A -> B) (l : list A) :
  map2 h (map g l) l = map (fun a => h (g a) a) l.
Proof. induction l as [|a l IH]; cbn; [reflexivity | now rewrite IH]. Qed.

Lemma mat_map2_map_l {A B C} (h : B -> A -> C) (g : A -> B) (M : list (list A)) :
  mat_map2 h (mat_map g M) M = mat_map (fun a => h (g a) a) M.
Proof.
  unfold mat_map2, mat_map. rewrite map2_map_l.
  apply map_ext. intros row. apply map2_map_l.
Qed.

(** X6: for an isotropic kernel, with its two hyperparameters and a
    non-zero length scale, [get_dgrad] yields the diagonals of what
    [get_grad] yields on the same points: ones for [rho], zeros for
    [ell]. *)
Theorem matern_dgrad_is_grad_diagonal
    (dist_foreach : Points -> option Points -> list Mat) (nparams : Matern.t -> nat)
    (self : Matern.t) (X : Points) (l : R) :
  Matern._iso self = true ->
  Matern._ell self = Distances.EllScalar l ->
  l <> 0 ->
  nparams self = 2%nat ->
  map fdiagonal (items (Matern.get_grad dist_foreach self X None)) =
    map (map Some) (items (Matern.get_dgrad nparams self X)).
Proof.
  intros Hiso Hell _ Hn.
  unfold Matern.get_grad, Matern.get_dgrad, Distances.rescale.
  rewrite Hiso, Hell, Hn, grad_S, grad_M. cbn [items map option_map Nat.sub repeat].
  unfold Distances.dist. cbn [Distances.other].
  set (X' := map (Distances.div_ell (Distances.EllScalar l)) X).
  assert (HX' : List.length X' = List.length X) by apply length_map.
  rewrite <- HX'.
  unfold fdiagonal. rewrite !fdiagonal_from_Some.
  change (diagonal_from 0) with diagonal.
  rewrite mat_map2_map_l, !mat_map_map, !mat_map_pairwise.
  rewrite !diagonal_pairwise, <- !map_const_repeat.
  f_equal; [|f_equal]; f_equal; apply map_ext; intros x;
    rewrite euclidean_self.
  - rewrite Ropp_0, exp_0, f_at_zero. ring.
  - apply g_times_zero.
Qed.

(** X6 (instance): an isotropic Matern-5 kernel on the points 0 and 1. *)
Lemma matern_dgrad_is_grad_diagonal_example :
  map fdiagonal (items (Matern.get_grad sq_dist_foreach Examples.k_iso5 [[0]; [1]] None)) =
    map (map Some) (items (Matern.get_dgrad (fun _ => 2%nat) Examples.k_iso5 [[0]; [1]])).
Proof.
  apply (matern_dgrad_is_grad_diagonal sq_dist_foreach (fun _ => 2%nat)
           Examples.k_iso5 [[0]; [1]] 1).
  - reflexivity.
  - reflexivity.
  - lra.
  - reflexivity.
Defined.

(** ** Construction *)

Section MaternConstruction.

Variable register_rho : string -> R -> result R.
Variable register_ell : string -> Distances.Ell -> bool -> result Distances.Ell.

(** X7: the constructor refuses every smoothness [d] other than 1, 3 and 5
    with a ValueError, before any parameter is registered. *)
Theorem matern_init_rejects_smoothness (rho : R) (ell : Distances.Ell) (d : Z)
    (ndim : option nat) :
  ~ In d [1; 3; 5]%Z ->
  Matern.__init__ register_rho register_ell rho ell d ndim =
    inl (ValueError "d must be one of 1, 3, or 5").
Proof.
  intros Hd. unfold Matern.__init__.
  destruct (Z.eqb_spec d 1) as [-> | H1]; [exfalso; apply Hd; cbn; auto|].
  destruct (Z.eqb_spec d 3) as [-> | H3]; [exfalso; apply Hd; cbn; auto|].
  destruct (Z.eqb_spec d 5) as [-> | H5]; [exfalso; apply Hd; cbn; auto|].
  reflexivity.
Qed.

Lemma matern_init_returns (rho : R) (ell : Distances.Ell) (d : Z)
    (ndim : option nat) (k : Matern.t) :
  Matern.__init__ register_rho register_ell rho ell d ndim = inr k ->
  In d [1; 3; 5]%Z /\
  Matern._d k = d /\
  Matern._iso k = is_some ndim /\
  Matern.ndim k = match ndim with
                  | Some n => n
                  | None => Matern.ell_size (Matern._ell k)
                  end /\
  register_rho "rho" rho = inr (Matern._rho k) /\
  register_ell "ell" ell (is_some ndim) = inr (Matern._ell k).
Proof.
  unfold Matern.__init__.
  destruct (negb _) eqn:Hd; [discriminate|].
  apply negb_false_iff in Hd.
  assert (HIn : In d [1; 3; 5]%Z).
  { apply orb_true_iff in Hd as [Hd | Hd]; [apply orb_true_iff in Hd as [Hd | Hd]|];
      apply Z.eqb_eq in Hd; subst; cbn; auto. }
  unfold bind, ret.
  destruct (register_rho "rho" rho) as [e | rho'] eqn:Er; [discriminate|].
  destruct ndim as [n|]; cbn [is_some];
    destruct (register_ell "ell" ell _) as [e | ell'] eqn:Ee; try discriminate;
    intros E; injection E as <-; cbn; auto 10.
Qed.

(** X8: a kernel the constructor returns has a smoothness among 1, 3 and 5,
    the one it was given; it is isotropic exactly when [ndim] was given; its
    dimension is [ndim], or else the size of the registered length scales;
    and [rho] and [ell] are what the registration returned. *)
Theorem matern_init_invariant (rho : R) (ell : Distances.Ell) (d : Z)
    (ndim : option nat) (k : Matern.t) :
  Matern.__init__ register_rho register_ell rho ell d ndim = inr k ->
  In (Matern._d k) [1; 3; 5]%Z /\
  Matern._d k = d /\
  Matern._iso k = is_some ndim /\
  Matern.ndim k = match ndim with
                  | Some n => n
                  | None => Matern.ell_size (Matern._ell k)
                  end /\
  register_rho "rho" rho = inr (Matern._rho k) /\
  register_ell "ell" ell (is_some ndim) = inr (Matern._ell k).
Proof.
  intros E. destruct (matern_init_returns _ _ _ _ _ E) as (HIn & Hd & Hrest).
  rewrite Hd. auto.
Qed.

(** X9: the keywords [__repr__] collects give back the constructor's
    arguments: [d], read with its default 3 when it is left out, is the
    smoothness the kernel was built with, and [ndim] is present exactly when
    it was given, with that value. *)
Theorem matern_repr_round_trip (rho : R) (ell : Distances.Ell) (d : Z)
    (ndim : option nat) (k : Matern.t) :
  Matern.__init__ register_rho register_ell rho ell d ndim = inr k ->
  match keyword "d" (Matern.repr_kwargs k) with
  | Some v => v
  | None => PyInt 3
  end = PyInt d /\
  keyword "ndim" (Matern.repr_kwargs k) = option_map (fun n => PyInt (Z.of_nat n)) ndim.
Proof.
  intros E. apply matern_init_returns in E as (_ & Hd & Hiso & Hn & _).
  unfold Matern.repr_kwargs. rewrite Hd, Hiso, Hn.
  destruct ndim as [n|]; cbn [is_some option_map app];
    destruct (Z.eqb_spec d 3) as [-> | H3]; cbn; auto.
Qed.

End MaternConstruction.

(** X7 (instance): [d = 2] is refused. *)
Lemma matern_init_rejects_smoothness_example :
  Matern.__init__ (fun _ => ret) (fun _ ell _ => ret ell) 1 (Distances.EllScalar 1) 2 None =
    inl (ValueError "d must be one of 1, 3, or 5").
Proof.
  apply (matern_init_rejects_smoothness (fun _ => ret) (fun _ ell _ => ret ell)
           1 (Distances.EllScalar 1) 2%Z None).
  cbn. intros [H | [H | [H | []]]]; discriminate.
Defined.

(** X8 (instance): an isotropic Matern-5 kernel, with a registration that accepts what
    it is given. *)
Lemma matern_init_invariant_example :
  In (Matern._d Examples.k_iso5) [1; 3; 5]%Z /\
  Matern._d Examples.k_iso5 = 5%Z /\
  Matern._iso Examples.k_iso5 = true /\
  Matern.ndim Examples.k_iso5 = 1%nat /\
  ret 2 = inr (Matern._rho Examples.k_iso5) /\
  ret (Distances.EllScalar 1) = inr (Matern._ell Examples.k_iso5).
Proof.
  apply (matern_init_invariant (fun _ => ret) (fun _ ell _ => ret ell)
           2 (Distances.EllScalar 1) 5%Z (Some 1%nat) Examples.k_iso5).
  reflexivity.
Defined.

(** X9 (instance): the same kernel reports [d = 5] and [ndim = 1]. *)
Lemma matern_repr_round_trip_example :
  match keyword "d" (Matern.repr_kwargs Examples.k_iso5) with
  | Some v => v
  | None => PyInt 3
  end = PyInt 5 /\
  keyword "ndim" (Matern.repr_kwargs Examples.k_iso5) = Some (PyInt 1).
Proof.
  apply (matern_repr_round_trip (fun _ => ret) (fun _ ell _ => ret ell)
           2 (Distances.EllScalar 1) 5%Z (Some 1%nat) Examples.k_iso5).
  reflexivity.
Defined.

Section EngineConsistency.

Context {LikeT KernT MeanT : Type}.
Context `{Likelihoods.Likelihood LikeT} `{Kernels.Kernel KernT} `{Functions.Function MeanT}.

Variable cholesky : Mat -> result Mat.
Variable solve_triangular : Mat -> Vec -> bool -> result Vec.
Variable solve_triangular_mat : Mat -> Mat -> result Mat.
Variable cholesky_update : Mat -> Mat -> Mat -> Vec -> Vec -> result (Mat * Vec).
Variable cholesky_inverse : Mat -> result Mat.
Variable nparams : GP LikeT KernT MeanT -> nat.

Local Abbreviation GP := (GP LikeT KernT MeanT).
Local Abbreviation _update := (_update cholesky solve_triangular).
Local Abbreviation _updateinc := (_updateinc cholesky_update).
Local Abbreviation get_loglike := (get_loglike solve_triangular cholesky_inverse nparams).

(** X10: [_update] and [_updateinc] write nothing but the cache: the
    likelihood, the kernel, the mean and the training set are the same after
    the call, whether it returns or raises. *)
Theorem refits_only_touch_cache (self : GP) (X : Points) (Y : Vec) :
  same_model self (snd (_update self)) /\
  same_model self (snd (_updateinc X Y self)).
Proof.
  split.
  - unfold Models._update.
    destruct (0 <? ndata self)%nat; [|repeat split].
    destruct (cholesky _) as [e | L]; [repeat split|].
    destruct (solve_triangular L _ false) as [e | a]; repeat split.
  - unfold Models._updateinc.
    destruct (_L self) as [L|]; [|repeat split].
    destruct (_a self) as [a|]; [|repeat split].
    destruct (cholesky_update _ _ _ _ _) as [e | [L' a']]; repeat split.
Qed.

(** X11: [_update] is idempotent: a second call on the model the first one
    left behind has the same outcome and leaves the same model. *)
Theorem update_idempotent (self : GP) :
  _update (snd (_update self)) = _update self.
Proof.
  unfold Models._update.
  destruct (0 <? ndata self)%nat eqn:En; cbn [snd]; [|now rewrite En].
  destruct (cholesky _) as [e | L] eqn:EL; cbn [snd].
  - now rewrite En, EL.
  - destruct (solve_triangular L _ false) as [e | a] eqn:Ea; cbn [snd].
    + change (ndata (set_L self L)) with (ndata self). rewrite En.
      unfold data_X, data_Y. cbn [_kern _like _mean set_L _X _Y].
      fold (data_X self). fold (data_Y self).
      rewrite EL, Ea. reflexivity.
    + change (ndata (set_a (set_L self L) a)) with (ndata self). rewrite En.
      unfold data_X, data_Y. cbn [_kern _like _mean set_L set_a _X _Y].
      fold (data_X self). fold (data_Y self).
      rewrite EL, Ea. reflexivity.
Qed.

(** X12: when [get_loglike] returns a value and a gradient, the value is the
    one it returns without the gradient, and the gradient has one entry per
    hyperparameter derivative: [nparams] zeros without data, and otherwise
    one for the noise, one per matrix of the kernel's [get_grad] and one per
    vector of the mean's [get_grad]. *)
Theorem loglike_value_and_gradient_length (self : GP) (lZ : R) (dlZ : list fval) :
  get_loglike self true = inr (LZgrad lZ dlZ) ->
  get_loglike self false = inr (LZ lZ) /\
  List.length dlZ =
    if (ndata self =? 0)%nat then nparams self
    else (1 + List.length (items (Kernels.get_grad (_kern self) (data_X self) None))
          + List.length (items (Functions.get_grad (_mean self) (data_X self))))%nat.
Proof.
  unfold Models.get_loglike.
  destruct (ndata self =? 0)%nat.
  - intros E. injection E as <- <-. split; [reflexivity | apply repeat_length].
  - destruct (_a self) as [a|]; [|discriminate].
    destruct (_L self) as [L|]; [|discriminate].
    cbn [negb]. unfold bind, ret, raise.
    destruct (solve_triangular L a true) as [e | alpha]; [discriminate|].
    destruct (cholesky_inverse L) as [e | Li]; [discriminate|].
    destruct (raised (Kernels.get_grad _ _ _)) as [e|]; [discriminate|].
    destruct (raised (Functions.get_grad _ _)) as [e|]; [discriminate|].
    intros E. injection E as <- <-. split; [reflexivity|].
    cbn [List.length]. rewrite length_app, !length_map. reflexivity.
Qed.

Lemma map2_nil_r {A B C} (f : A -> B -> C) (l : list A) : map2 f l [] = [].
Proof. now destruct l. Qed.

Lemma diagonal_from_map2 (f : R -> R -> R) (A B : Mat) (i : nat) :
  diagonal_from i (mat_map2 f A B) = map2 f (diagonal_from i A) (diagonal_from i B).
Proof.
  revert B i. induction A as [|a A IH]; intros B i; [reflexivity|].
  destruct B as [|b B].
  { change (diagonal_from i []) with (@nil R). now rewrite map2_nil_r. }
  change (diagonal_from i (mat_map2 f (a :: A) (b :: B)))
    with (match nth_error (map2 f a b) i with
          | Some x => x :: diagonal_from (S i) (mat_map2 f A B)
          | None => []
          end).
  change (diagonal_from i (a :: A))
    with (match nth_error a i with
          | Some x => x :: diagonal_from (S i) A
          | None => []
          end).
  change (diagonal_from i (b :: B))
    with (match nth_error b i with
          | Some x => x :: diagonal_from (S i) B
          | None => []
          end).
  rewrite nth_error_map2.
  destruct (nth_error a i) as [x|]; [|reflexivity].
  destruct (nth_error b i) as [y|]; [|now rewrite map2_nil_r].
  cbn [map2]. f_equal. apply IH.
Qed.

Lemma vadd_columns (g1 g2 : nat -> R) (n : nat) :
  vadd (map g1 (seq 0 n)) (map g2 (seq 0 n)) = map (fun j => g1 j + g2 j) (seq 0 n).
Proof. apply map2_map_same. Qed.

Lemma sum_axis0_columns (n : nat) (V : Mat) :
  Forall (fun row => List.length row = n) V ->
  sum_axis0 n (mat_map (fun v => v ^ 2) V) =
    map (fun c => dot c c) (transpose_cols n V).
Proof.
  intros Hrows. unfold transpose_cols, column, sum_axis0. rewrite map_map.
  induction Hrows as [|row V Hrow _ IH].
  - transitivity (map (fun _ : nat => 0) (seq 0 n));
      [now rewrite map_const_repeat, length_seq | reflexivity].
  - cbn [mat_map map fold_right]. unfold mat_map in IH. rewrite IH.
    rewrite <- (nth_seq_map row 0) at 1. rewrite Hrow, map_map.
    rewrite vadd_columns. apply map_ext. intros j.
    unfold dot, vsum. cbn [map map2 fold_right]. ring.
Qed.

(** X13: [sample] and [get_posterior] agree: for a kernel that is evaluated
    pair by pair and whose [get_dkernel] is the diagonal of its
    [get_kernel], and a solver that keeps the number of columns, the mean
    [sample] draws around is the posterior mean and the diagonal of its
    covariance is the posterior variance. *)
Theorem sampling_covariance_diagonal (self : GP) (X : Points)
    (mu mu' s2 : Vec) (Sigma : Mat) :
  solve_shape_contract solve_triangular_mat ->
  kernel_pairwise (_kern self) ->
  Kernels.get_dkernel (_kern self) X = diagonal (Kernels.get_kernel (_kern self) X None) ->
  sample_moments solve_triangular_mat self X = inr (mu, Sigma) ->
  get_posterior solve_triangular_mat self X false = inr (Post mu' s2) ->
  mu' = mu /\ s2 = diagonal Sigma.
Proof.
  intros Hshape [k [_ Hk]] Hdiag.
  unfold sample_moments, get_posterior. cbn [negb].
  rewrite Hdiag. unfold bind, ret, raise.
  destruct (0 <? ndata self)%nat.
  - destruct (_L self) as [L|]; [|discriminate].
    destruct (_a self) as [a|]; [|discriminate].
    destruct (solve_triangular_mat L _) as [e | V] eqn:EV; [discriminate|].
    intros E1 E2. injection E1 as <- <-. injection E2 as <- <-.
    split; [reflexivity|].
    unfold diagonal. rewrite diagonal_from_map2.
    change (diagonal_from 0) with diagonal.
    unfold mmul_t. rewrite diagonal_pairwise.
    unfold vsub. f_equal.
    apply sum_axis0_columns.
    apply (Hshape _ _ _ _ EV). rewrite Hk. apply pairwise_rows.
  - intros E1 E2. injection E1 as <- <-. injection E2 as <- <-. auto.
Qed.

(** X14: asking [get_posterior] for gradients does not change the
    prediction: the mean and variance returned with [grad=True] are those
    returned without; and for a model without data the gradient of the
    variance is zero everywhere. *)
Theorem posterior_gradient_keeps_moments (self : GP) (X : Points)
    (mu s2 : Vec) (dmu ds2 : Mat) :
  get_posterior solve_triangular_mat self X true = inr (PostGrad mu s2 dmu ds2) ->
  get_posterior solve_triangular_mat self X false = inr (Post mu s2) /\
  (ndata self = 0%nat -> ds2 = zeros_like X).
Proof.
  unfold get_posterior. cbn [negb]. unfold bind, ret, raise.
  destruct (0 <? ndata self)%nat eqn:En.
  - destruct (_L self) as [L|]; [|discriminate].
    destruct (_a self) as [a|]; [|discriminate].
    destruct (solve_triangular_mat L _) as [e | V]; [discriminate|].
    destruct (all_finite_mat _) as [dK|]; [|discriminate].
    destruct (solve_triangular_mat L dK) as [e | dV]; [discriminate|].
    intros E. injection E as <- <- _ _. split; [reflexivity|].
    apply Nat.ltb_lt in En. lia.
  - intros E. injection E as <- <- _ <-. split; reflexivity.
Qed.

End EngineConsistency.

Lemma sqrt2_neq_0 : sqrt 2 <> 0.
Proof. pose proof (sqrt_lt_R0 2). lra. Qed.

Lemma small_solve_shape : solve_shape_contract SmallBackend.solve_triangular_mat.
Proof.
  intros L K V n E HK. unfold SmallBackend.solve_triangular_mat in E.
  destruct L as [|[|l [|? ?]] [|? ?]]; try discriminate.
  destruct K as [|row [|? ?]]; try discriminate.
  destruct (Req_dec_T l 0); [discriminate|].
  injection E as <-. constructor; [|constructor].
  rewrite length_map. now inversion HK.
Qed.

Lemma gp_one_loglike_grad :
  exists lZ dlZ,
    get_loglike SmallBackend.solve_triangular SmallBackend.cholesky_inverse
      EngineExamples.nparams EngineExamples.gp_one true = inr (LZgrad lZ dlZ).
Proof.
  unfold get_loglike.
  change (ndata EngineExamples.gp_one =? 0)%nat with false.
  cbn [EngineExamples.gp_one _a _L negb].
  unfold SmallBackend.solve_triangular, SmallBackend.cholesky_inverse.
  destruct (Req_dec_T (sqrt 2) 0) as [E | _]; [destruct (sqrt2_neq_0 E)|].
  cbn [bind]. eexists _, _. reflexivity.
Qed.

(** X12 (instance): one training point under unit noise, four hyperparameters. *)
Lemma loglike_value_and_gradient_length_example :
  exists lZ dlZ,
    get_loglike SmallBackend.solve_triangular SmallBackend.cholesky_inverse
      EngineExamples.nparams EngineExamples.gp_one true = inr (LZgrad lZ dlZ) /\
    get_loglike SmallBackend.solve_triangular SmallBackend.cholesky_inverse
      EngineExamples.nparams EngineExamples.gp_one false = inr (LZ lZ) /\
    List.length dlZ = 4%nat.
Proof.
  destruct gp_one_loglike_grad as (lZ & dlZ & E).
  exists lZ, dlZ. split; [exact E|].
  exact (loglike_value_and_gradient_length SmallBackend.solve_triangular
           SmallBackend.cholesky_inverse EngineExamples.nparams
           EngineExamples.gp_one lZ dlZ E).
Defined.

Lemma gp_one_moments :
  exists mu Sigma s2,
    sample_moments SmallBackend.solve_triangular_mat EngineExamples.gp_one [[1]] =
      inr (mu, Sigma) /\
    get_posterior SmallBackend.solve_triangular_mat EngineExamples.gp_one [[1]] false =
      inr (Post mu s2).
Proof.
  unfold sample_moments, get_posterior.
  change (0 <? ndata EngineExamples.gp_one)%nat with true.
  cbn [EngineExamples.gp_one _a _L negb].
  unfold SmallBackend.solve_triangular_mat.
  cbn [Kernels.get_kernel EngineExamples.kern Matern_Kernel data_X _X _kern].
  unfold Matern.get_kernel. cbn [Distances.rescale Distances.dist pairwise map mat_map
    Distances.other option_map].
  destruct (Req_dec_T (sqrt 2) 0) as [E | _]; [destruct (sqrt2_neq_0 E)|].
  cbn [bind]. eexists _, _, _. split; reflexivity.
Qed.

(** X13 (instance): the model fitted to one training point, queried at 1. *)
Lemma sampling_covariance_diagonal_example :
  exists mu Sigma s2,
    sample_moments SmallBackend.solve_triangular_mat EngineExamples.gp_one [[1]] =
      inr (mu, Sigma) /\
    get_posterior SmallBackend.solve_triangular_mat EngineExamples.gp_one [[1]] false =
      inr (Post mu s2) /\
    s2 = diagonal Sigma.
Proof.
  destruct gp_one_moments as (mu & Sigma & s2 & E1 & E2).
  exists mu, Sigma, s2. split; [exact E1|]. split; [exact E2|].
  exact (proj2 (sampling_covariance_diagonal SmallBackend.solve_triangular_mat
                  EngineExamples.gp_one [[1]] mu mu s2 Sigma
                  small_solve_shape
                  (matern_pairwise sq_dist_foreach Examples.k_iso1)
                  (eq_sym (get_kernel_diagonal Examples.k_iso1 [[1]]))
                  E1 E2)).
Defined.

(** X14 (instance): the prior at the point 1. *)
Lemma posterior_gradient_keeps_moments_example :
  get_posterior SmallBackend.solve_triangular_mat EngineExamples.gp_empty [[1]] false =
    inr (Post [0] [1]) /\
  (ndata EngineExamples.gp_empty = 0%nat -> [[0]] = zeros_like [[1]]).
Proof.
  apply (posterior_gradient_keeps_moments SmallBackend.solve_triangular_mat
           EngineExamples.gp_empty [[1]] [0] [1] [[0]] [[0]]).
  reflexivity.
Defined.

(** ** BasicGP *)

Lemma eq_str_true (v : pyval) (tag : string) :
  BasicGP.eq_str v tag = true -> v = PyStr tag.
Proof.
  destruct v; cbn; try discriminate.
  intros E. apply String.eqb_eq in E. now subst.
Qed.

Section BasicGPKernels.

Context {LikeT MeanT SET : Type}.
Variable Gaussian : R -> result LikeT.
Variable Constant : R -> result MeanT.
Variable SE : R -> Distances.Ell -> option nat -> result SET.
Variable register_rho : string -> R -> result R.
Variable register_ell : string -> Distances.Ell -> bool -> result Distances.Ell.
Variable register_like : string -> LikeT -> result LikeT.
Variable register_kern : string -> option (@BasicGP.kernel_obj SET)
                        -> result (option (@BasicGP.kernel_obj SET)).
Variable register_mean : string -> MeanT -> result MeanT.
Variable _rename : GP LikeT (option (@BasicGP.kernel_obj SET)) MeanT -> list (string * string)
                   -> result (GP LikeT (option (@BasicGP.kernel_obj SET)) MeanT).
Variable se_iso : SET -> bool.
Variable se_ndim : SET -> nat.

Lemma select_kernel_unrecognised (rho : R) (ell : Distances.Ell) (ndim : option nat)
    (kernel : pyval) :
  ~ In kernel [PyStr "se"; PyStr "matern1"; PyStr "matern3"; PyStr "matern5"] ->
  BasicGP.select_kernel SE register_rho register_ell rho ell ndim kernel = inr None.
Proof.
  intros Hk. unfold BasicGP.select_kernel.
  destruct (BasicGP.eq_str kernel "se") eqn:E0;
    [apply eq_str_true in E0; destruct Hk; cbn; auto|].
  destruct (BasicGP.eq_str kernel "matern1") eqn:E1;
    [apply eq_str_true in E1; destruct Hk; cbn; auto|].
  destruct (BasicGP.eq_str kernel "matern3") eqn:E3;
    [apply eq_str_true in E3; destruct Hk; cbn; auto|].
  destruct (BasicGP.eq_str kernel "matern5") eqn:E5;
    [apply eq_str_true in E5; destruct Hk; cbn; auto 6|].
  reflexivity.
Qed.

(** X15: for every [kernel] argument that is not one of the four tags, once
    the likelihood and the mean are built: [None] is the only one rejected
    with 'Unknown kernel type'; any other value builds the model with the
    kernel [None]. *)
Theorem basicgp_unrecognised_kernel (sn2 rho : R) (ell : Distances.Ell) (mean : R)
    (ndim : option nat) (kernel : pyval) (like : LikeT) (mean' : MeanT) :
  ~ In kernel [PyStr "se"; PyStr "matern1"; PyStr "matern3"; PyStr "matern5"] ->
  Gaussian sn2 = inr like ->
  Constant mean = inr mean' ->
  BasicGP.__init__ Gaussian Constant SE register_rho register_ell
    register_like register_kern register_mean _rename
    sn2 rho ell mean ndim kernel =
  match kernel with
  | PyNone => inl (ValueError "Unknown kernel type")
  | _ =>
      self <- __init__ register_like register_kern register_mean like None mean' ;;
      _rename self [("like.sn2", "sn2"); ("kern.rho", "rho");
                    ("kern.ell", "ell"); ("mean.bias", "mean")]%string
  end.
Proof.
  intros Hk EG EC. unfold BasicGP.__init__.
  rewrite EG, EC. cbn [bind].
  rewrite (select_kernel_unrecognised rho ell ndim kernel Hk). cbn [bind].
  destruct kernel; reflexivity.
Qed.

(** X16: for a model whose kernel is the Matern kernel that the constructor's
    dispatch built, [__repr__] collects exactly the constructor's [ndim],
    when one was given, and its [kernel] tag. *)
Theorem basicgp_repr_round_trip (self : GP LikeT (option (@BasicGP.kernel_obj SET)) MeanT)
    (rho : R) (ell : Distances.Ell) (ndim : option nat) (kernel : pyval) (k : Matern.t) :
  BasicGP.select_kernel SE register_rho register_ell rho ell ndim kernel =
    inr (Some (BasicGP.KMatern k)) ->
  _kern self = Some (BasicGP.KMatern k) ->
  BasicGP.repr_kwargs se_iso se_ndim self =
    inr (match ndim with
         | Some n => [("ndim"%string, PyInt (Z.of_nat n))]
         | None => []
         end ++ [("kernel"%string, kernel)]).
Proof.
  intros Esel Ekern. unfold BasicGP.repr_kwargs. rewrite Ekern.
  cbn [BasicGP.kern_iso BasicGP.kern_ndim].
  assert (Hk : exists d, kernel = PyStr (BasicGP.matern_tag d) /\
                         Matern.__init__ register_rho register_ell rho ell d ndim = inr k).
  { unfold BasicGP.select_kernel in Esel.
    destruct (BasicGP.eq_str kernel "se") eqn:E0.
    { destruct (SE rho ell ndim); discriminate. }
    destruct (BasicGP.eq_str kernel "matern1") eqn:E1.
    { apply eq_str_true in E1. exists 1%Z. split; [exact E1|].
      destruct (Matern.__init__ _ _ rho ell 1 ndim); [discriminate|].
      unfold bind, ret in Esel. injection Esel as ->. reflexivity. }
    destruct (BasicGP.eq_str kernel "matern3") eqn:E3.
    { apply eq_str_true in E3. exists 3%Z. split; [exact E3|].
      destruct (Matern.__init__ _ _ rho ell 3 ndim); [discriminate|].
      unfold bind, ret in Esel. injection Esel as ->. reflexivity. }
    destruct (BasicGP.eq_str kernel "matern5") eqn:E5.
    { apply eq_str_true in E5. exists 5%Z. split; [exact E5|].
      destruct (Matern.__init__ _ _ rho ell 5 ndim); [discriminate|].
      unfold bind, ret in Esel. injection Esel as ->. reflexivity. }
    discriminate. }
  destruct Hk as (d & -> & Einit).
  apply matern_init_returns in Einit as (_ & Hd & Hiso & Hn & _).
  rewrite Hd, Hiso, Hn. destruct ndim; reflexivity.
Qed.

End BasicGPKernels.

(** X15 (instance): [kernel=None] is rejected. *)
Lemma basicgp_unrecognised_kernel_example :
  BasicGP.__init__ (SET := unit) (fun sn2 => ret (MkGaussian sn2))
    (fun b => ret (MkConstant b)) (fun _ _ _ => ret tt)
    (fun _ => ret) (fun _ ell _ => ret ell)
    (fun _ => ret) (fun _ => ret) (fun _ => ret) (fun self _ => ret self)
    1 1 (Distances.EllScalar 1) 0 None PyNone =
  inl (ValueError "Unknown kernel type").
Proof.
  apply (basicgp_unrecognised_kernel (SET := unit) (fun sn2 => ret (MkGaussian sn2))
           (fun b => ret (MkConstant b)) (fun _ _ _ => ret tt)
           (fun _ => ret) (fun _ ell _ => ret ell)
           (fun _ => ret) (fun _ => ret) (fun _ => ret) (fun self _ => ret self)
           1 1 (Distances.EllScalar 1) 0 None PyNone (MkGaussian 1) (MkConstant 0)).
  - cbn. intros [H | [H | [H | [H | []]]]]; discriminate.
  - reflexivity.
  - reflexivity.
Defined.

(** X16 (instance): a model built with [ndim=1] and the tag matern5. *)
Lemma basicgp_repr_round_trip_example :
  BasicGP.repr_kwargs (SET := unit) (fun _ => true) (fun _ => 1%nat)
    (@MkGP Gaussian (option (@BasicGP.kernel_obj unit)) Constant
       (MkGaussian 1) (Some (BasicGP.KMatern Examples.k_iso5)) (MkConstant 0)
       None None None None) =
  inr [("ndim"%string, PyInt 1); ("kernel"%string, PyStr "matern5")].
Proof.
  apply (basicgp_repr_round_trip (SET := unit) (fun _ _ _ => ret tt)
           (fun _ => ret) (fun _ ell _ => ret ell) (fun _ => true) (fun _ => 1%nat)
           (@MkGP Gaussian (option (@BasicGP.kernel_obj unit)) Constant
              (MkGaussian 1) (Some (BasicGP.KMatern Examples.k_iso5)) (MkConstant 0)
              None None None None)
           2 (Distances.EllScalar 1) (Some 1%nat) (PyStr "matern5") Examples.k_iso5).
  - reflexivity.
  - reflexivity.
Defined.

(** ** Plotting *)

Section PlotPosteriorProperties.

Context {LikeT KernT MeanT : Type}.
Context `{Kernels.Kernel KernT} `{Functions.Function MeanT}.

Variable solve_triangular_mat : Mat -> Mat -> result Mat.
Variable draw_posterior :
  Vec -> Vec -> Vec -> GP LikeT KernT MeanT -> bool -> list (string * pyval) -> result unit.

Local Abbreviation plot_posterior :=
  (Plotting.plot_posterior solve_triangular_mat draw_posterior).

(** X17: [plot_posterior] never reaches its drawing code on a GP: whatever
    the arguments, it ends in the guard's ValueError, in numpy's ValueError
    for the minimum or maximum of an empty array, or in the TypeError of the
    call [get_posterior(..., predictive=...)]. *)
Theorem plot_posterior_never_draws (model : GP LikeT KernT MeanT) (xmin xmax : option R)
    (data predictive : bool) (kwargs : list (string * pyval)) :
  exists e,
    plot_posterior model xmin xmax data predictive kwargs = inl e /\
    In e [ValueError "model has no data and no bounds are given";
          ValueError "zero-size array to reduction operation minimum which has no identity";
          ValueError "zero-size array to reduction operation maximum which has no identity";
          TypeError "get_posterior() got an unexpected keyword argument 'predictive'"].
Proof.
  unfold Plotting.plot_posterior.
  destruct (_ && _).
  { eexists. split; [reflexivity | cbn; auto]. }
  unfold Plotting.amin, Plotting.amax.
  destruct xmin as [a|], xmax as [b|], (List.concat (data_X model)) as [|x xs];
    (eexists; split; [reflexivity | cbn; auto]).
Qed.

(** X18: [plot_posterior] raises 'model has no data and no bounds are given'
    exactly when the model has no data and [xmin] or [xmax] is missing. *)
Theorem plot_posterior_guard_iff (model : GP LikeT KernT MeanT) (xmin xmax : option R)
    (data predictive : bool) (kwargs : list (string * pyval)) :
  plot_posterior model xmin xmax data predictive kwargs =
    inl (ValueError "model has no data and no bounds are given") <->
  ndata model = 0%nat /\ (xmin = None \/ xmax = None).
Proof.
  unfold Plotting.plot_posterior. split.
  - destruct (_ && _) eqn:G.
    + intros _. apply andb_true_iff in G as [G1 G2].
      apply Nat.eqb_eq in G1. split; [exact G1|].
      destruct xmin; [|now left]. destruct xmax; [|now right]. discriminate.
    + unfold Plotting.amin, Plotting.amax.
      destruct xmin as [a|], xmax as [b|], (List.concat (data_X model)) as [|x xs];
        cbn; intros E; discriminate.
  - intros [E [-> | ->]]; rewrite E; cbn [Nat.eqb is_some negb orb andb].
    + reflexivity.
    + now rewrite orb_true_r.
Qed.

End PlotPosteriorProperties.

(** *** Runs of calls *)

Lemma items_and_then (g1 g2 : generated Plotting.call) :
  items (Plotting.and_then g1 g2) =
    items g1 ++ match raised g1 with
                | Some _ => []
                | None => items g2
                end.
Proof.
  unfold Plotting.and_then. destruct (raised g1); [now rewrite app_nil_r | reflexivity].
Qed.

Lemma in_and_then (c : Plotting.call) (g1 g2 : generated Plotting.call) :
  In c (items (Plotting.and_then g1 g2)) -> In c (items g1) \/ In c (items g2).
Proof.
  rewrite items_and_then. intros HIn. apply in_app_or in HIn as [HIn | HIn]; [now left|].
  destruct (raised g1); [destruct HIn | now right].
Qed.

Lemma in_for_each {A} (body : A -> generated Plotting.call) (l : list A) (c : Plotting.call) :
  In c (items (Plotting.for_each body l)) ->
  exists a, In a l /\ In c (items (body a)).
Proof.
  induction l as [|a l IH]; cbn [Plotting.for_each]; [intros []|].
  intros HIn. apply in_and_then in HIn as [HIn | HIn].
  - exists a. split; [now left | exact HIn].
  - destruct (IH HIn) as (b & Hb & Hc). exists b. split; [now right | exact Hc].
Qed.

Lemma not_plot_in_axis (y : list fval) (kwargs : list (string * pyval)) :
  ~ In (Plotting.ax_plot y) (items (Plotting._axis_no_draw kwargs)).
Proof.
  unfold Plotting._axis_no_draw.
  destruct (unexpected_keyword _ kwargs); [intros []|].
  unfold Plotting._axis, Plotting.calls.
  destruct (Plotting.flag "legend" kwargs), (Plotting.flag "despine" kwargs);
    cbn; intuition discriminate.
Qed.

Lemma not_plot_in_label (y : list fval) (mk : string -> Plotting.call)
    (names : list string) (i : nat) :
  (forall s, mk s <> Plotting.ax_plot y) ->
  ~ In (Plotting.ax_plot y) (items (Plotting.label mk names i)).
Proof.
  intros Hmk. unfold Plotting.label.
  destruct (nth_error names i) as [name|]; cbn; [|tauto].
  intros [E | []]. exact (Hmk _ E).
Qed.

(** *** plot_chain *)

Lemma fold_Rmin_le (a : R) (l : Vec) (x : R) :
  In x l -> fold_right Rmin a l <= x.
Proof.
  induction l as [|b l IH]; [intros []|].
  intros [-> | HIn]; cbn [fold_right].
  - apply Rmin_l.
  - eapply Rle_trans; [apply Rmin_r | exact (IH HIn)].
Qed.

Lemma fold_Rmax_ge (a : R) (l : Vec) (x : R) :
  In x l -> x <= fold_right Rmax a l.
Proof.
  induction l as [|b l IH]; [intros []|].
  intros [-> | HIn]; cbn [fold_right].
  - apply Rmax_l.
  - eapply Rle_trans; [exact (IH HIn) | apply Rmax_r].
Qed.

Lemma col_min_le (M : Mat) (j : nat) (row : Vec) :
  In row M -> Plotting.col_min M j <= nth j row 0.
Proof.
  intros HIn. apply fold_Rmin_le. unfold column.
  apply in_map_iff. now exists row.
Qed.

Lemma col_max_ge (M : Mat) (j : nat) (row : Vec) :
  In row M -> nth j row 0 <= Plotting.col_max M j.
Proof.
  intros HIn. apply fold_Rmax_ge. unfold column.
  apply in_map_iff. now exists row.
Qed.

Lemma nth_error_map_seq {A} (g : nat -> A) (n j : nat) :
  nth_error (map g (seq 0 n)) j = if (j <? n)%nat then Some (g j) else None.
Proof.
  destruct (Nat.ltb_spec j n) as [Hlt | Hge].
  - rewrite nth_error_map, nth_error_seq.
    destruct (Nat.ltb_spec j n); [reflexivity | lia].
  - apply nth_error_None. rewrite length_map, length_seq. exact Hge.
Qed.

Lemma shift_entry (samples : Mat) (row : Vec) (j : nat) (x : R) :
  In row samples ->
  nth_error (map2 Rminus row (map (Plotting.col_min samples) (seq 0 (ncols samples)))) j
    = Some x ->
  0 <= x /\ x = nth j row 0 - Plotting.col_min samples j.
Proof.
  intros HIn. rewrite nth_error_map2, nth_error_map_seq.
  destruct (nth_error row j) as [s|] eqn:Es; [|discriminate].
  destruct (j <? ncols samples)%nat; [|discriminate].
  intros E. injection E as <-.
  rewrite (nth_error_nth _ _ 0 Es).
  pose proof (col_min_le samples j row HIn) as Hle.
  rewrite (nth_error_nth _ _ 0 Es) in Hle. split; [lra | reflexivity].
Qed.

Lemma normalize_entry (samples : Mat) (row' : Vec) (j : nat) (v : fval) :
  In row' (Plotting.shift samples) ->
  nth_error (map2 np_div row'
               (map (Plotting.col_max (Plotting.shift samples)) (seq 0 (ncols samples)))) j
    = Some v ->
  match v with
  | Some x => 0 <= x <= 1
  | None => True
  end.
Proof.
  intros HIn. rewrite nth_error_map2, nth_error_map_seq.
  destruct (nth_error row' j) as [x|] eqn:Ex; [|discriminate].
  destruct (j <? ncols samples)%nat; [|discriminate].
  intros E. injection E as <-.
  pose proof (col_max_ge (Plotting.shift samples) j row' HIn) as Hmax.
  rewrite (nth_error_nth _ _ 0 Ex) in Hmax.
  assert (Hx : 0 <= x).
  { unfold Plotting.shift in HIn. apply in_map_iff in HIn as (row & <- & Hrow).
    exact (proj1 (shift_entry samples row j x Hrow Ex)). }
  unfold np_div. destruct (Req_dec_T _ 0) as [E0 | Hne]; [exact I|].
  set (m := Plotting.col_max (Plotting.shift samples) j) in *.
  assert (Hm : 0 < m) by lra.
  split.
  - apply Rmult_le_pos; [exact Hx | left; now apply Rinv_0_lt_compat].
  - apply (Rmult_le_reg_r m); [exact Hm|].
    unfold Rdiv. rewrite Rmult_assoc, Rinv_l by exact Hne. lra.
Qed.

Lemma normalize_range (samples : Mat) :
  Forall (Forall (fun v : fval => match v with
                                  | Some x => 0 <= x <= 1
                                  | None => True
                                  end))
         (Plotting.normalize samples).
Proof.
  unfold Plotting.normalize. apply Forall_forall. intros row'' Hrow''.
  apply in_map_iff in Hrow'' as (row' & <- & Hrow').
  apply Forall_forall. intros v Hv.
  apply In_nth_error in Hv as [j Hj].
  exact (normalize_entry samples row' j v Hrow' Hj).
Qed.

(** X19: every series [plot_chain] plots lies in [0, 1], apart from the
    entries that are NaN. *)
Theorem plot_chain_series_in_unit_range (samples : Mat) (names : option (list string))
    (kwargs : list (string * pyval)) :
  Forall (fun c => match c with
                   | Plotting.ax_plot y =>
                       Forall (fun v : fval => match v with
                                               | Some x => 0 <= x <= 1
                                               | None => True
                                               end) y
                   | _ => True
                   end)
         (items (Plotting.plot_chain samples names kwargs)).
Proof.
  apply Forall_forall. intros c Hc.
  destruct c as [ | | | | | | y | | | | | ]; try exact I.
  unfold Plotting.plot_chain in Hc.
  destruct samples as [|row0 rest]; [destruct Hc|].
  cbv beta iota zeta in Hc.
  pose proof (normalize_range (row0 :: rest)) as Hall.
  set (normalized := Plotting.normalize (row0 :: rest)) in *. clearbody normalized.
  destruct (Plotting.pop "draw" (PyBool true) kwargs) as [draw kwargs'].
  apply in_and_then in Hc as [Hc | Hc];
    [destruct Hc as [E | []]; discriminate|].
  apply in_and_then in Hc as [Hc | Hc].
  2:{ unfold Plotting._figure in Hc.
      destruct (truthy draw); [destruct Hc as [E | []]; discriminate | destruct Hc]. }
  apply in_for_each in Hc as (i & _ & Hc).
  apply in_and_then in Hc as [Hc | Hc].
  { destruct Hc as [E | [E | [E | []]]]; try discriminate.
    injection E as <-.
    apply Forall_forall. intros v Hv. unfold column in Hv.
    apply in_map_iff in Hv as (row & <- & Hrow).
    rewrite Forall_forall in Hall. specialize (Hall row Hrow).
    destruct (nth_in_or_default i row None) as [HIn | ->]; [|exact I].
    rewrite Forall_forall in Hall. exact (Hall _ HIn). }
  apply in_and_then in Hc as [Hc | Hc].
  { destruct names as [names|]; [|destruct Hc].
    assert (Hmk : forall s, Plotting.set_ylabel s <> Plotting.ax_plot y) by discriminate.
    destruct (not_plot_in_label y Plotting.set_ylabel names i Hmk Hc). }
  apply in_and_then in Hc as [Hc | Hc].
  { destruct (_ <? _)%Z; [destruct Hc as [E | []]; discriminate | destruct Hc]. }
  destruct (not_plot_in_axis y kwargs' Hc).
Qed.

Lemma nth_map2 {A B C} (f : A -> B -> C) (l1 : list A) (l2 : list B) (j : nat)
    (a : A) (b : B) (c : C) :
  (j < List.length l1)%nat -> (j < List.length l2)%nat ->
  nth j (map2 f l1 l2) c = f (nth j l1 a) (nth j l2 b).
Proof.
  revert l2 j. induction l1 as [|x l1 IH]; intros [|y l2] [|j]; cbn; try lia.
  - reflexivity.
  - intros H1 H2. apply IH; lia.
Qed.

Lemma fold_Rmin_const (c : R) (l : Vec) :
  (forall x, In x l -> x = c) -> fold_right Rmin c l = c.
Proof.
  induction l as [|b l IH]; [reflexivity|].
  intros Hall. cbn [fold_right]. rewrite IH by (intros x Hx; apply Hall; now right).
  rewrite (Hall b) by now left. apply Rmin_left. lra.
Qed.

Lemma fold_Rmax_const (c : R) (l : Vec) :
  (forall x, In x l -> x = c) -> fold_right Rmax c l = c.
Proof.
  induction l as [|b l IH]; [reflexivity|].
  intros Hall. cbn [fold_right]. rewrite IH by (intros x Hx; apply Hall; now right).
  rewrite (Hall b) by now left. apply Rmax_left. lra.
Qed.

Lemma col_const (M : Mat) (j : nat) (c : R) :
  M <> [] ->
  (forall row, In row M -> nth j row 0 = c) ->
  Plotting.col_min M j = c /\ Plotting.col_max M j = c.
Proof.
  intros HM Hall. unfold Plotting.col_min, Plotting.col_max.
  assert (Hhd : nth j (hd [] M) 0 = c).
  { destruct M as [|row M]; [contradiction|]. apply Hall. now left. }
  rewrite Hhd.
  assert (Hcol : forall x, In x (column 0 M j) -> x = c).
  { intros x Hx. unfold column in Hx. apply in_map_iff in Hx as (row & <- & Hrow).
    now apply Hall. }
  split; [now apply fold_Rmin_const | now apply fold_Rmax_const].
Qed.

(** X20: a parameter that never moved is plotted as NaN: where a column of
    the chain is constant, the same column after [plot_chain]'s
    normalisation is NaN in every row, the division being 0 by 0. *)
Theorem plot_chain_constant_column_is_nan (samples : Mat) (j : nat) (c : R) :
  Forall (fun row => List.length row = ncols samples) samples ->
  (j < ncols samples)%nat ->
  (forall row, In row samples -> nth j row 0 = c) ->
  column None (Plotting.normalize samples) j = repeat None (List.length samples).
Proof.
  intros Hrect Hj Hconst.
  assert (Hne : samples <> []) by (intros ->; cbn in Hj; lia).
  set (d := ncols samples) in *.
  assert (Hmin : Plotting.col_min samples j = c) by (now apply col_const).
  assert (Hlen : forall row, In row samples ->
            List.length (map2 Rminus row (map (Plotting.col_min samples) (seq 0 d))) = d).
  { intros row Hrow. rewrite map2_length, length_map, length_seq.
    rewrite Forall_forall in Hrect. rewrite (Hrect row Hrow). apply Nat.min_id. }
  assert (Hshift : forall row', In row' (Plotting.shift samples) -> nth j row' 0 = 0).
  { intros row' Hrow'. unfold Plotting.shift in Hrow'.
    apply in_map_iff in Hrow' as (row & <- & Hrow). fold d.
    rewrite (nth_map2 Rminus _ _ j 0 (Plotting.col_min samples 0%nat) 0).
    - rewrite (Hconst row Hrow).
      rewrite (map_nth (Plotting.col_min samples) (seq 0 d) 0%nat j).
      rewrite seq_nth by exact Hj. cbn [Nat.add]. rewrite Hmin. ring.
    - rewrite Forall_forall in Hrect. rewrite (Hrect row Hrow). exact Hj.
    - rewrite length_map, length_seq. exact Hj. }
  assert (Hne' : Plotting.shift samples <> []).
  { unfold Plotting.shift. destruct samples; [contradiction | discriminate]. }
  assert (Hmax : Plotting.col_max (Plotting.shift samples) j = 0)
    by (now apply col_const).
  assert (Hl : List.length (Plotting.shift samples) = List.length samples)
    by (unfold Plotting.shift; apply length_map).
  unfold Plotting.normalize, column. rewrite map_map. fold d.
  rewrite <- Hl, <- (map_const_repeat (@None R) (Plotting.shift samples)).
  apply map_ext_in. intros row' Hrow'.
  rewrite (nth_map2 np_div _ _ j 0 (Plotting.col_max (Plotting.shift samples) 0%nat) None).
  - rewrite (map_nth (Plotting.col_max (Plotting.shift samples)) (seq 0 d) 0%nat j).
    rewrite seq_nth by exact Hj. cbn [Nat.add]. rewrite Hmax.
    unfold np_div. destruct (Req_dec_T 0 0) as [_ | Habs]; [reflexivity | now destruct Habs].
  - unfold Plotting.shift in Hrow'. apply in_map_iff in Hrow' as (row & <- & Hrow).
    fold d. rewrite (Hlen row Hrow). exact Hj.
  - rewrite length_map, length_seq. exact Hj.
Qed.

(** X20 (instance): a chain of two samples whose first parameter stays at 3. *)
Lemma plot_chain_constant_column_is_nan_example :
  column None (Plotting.normalize [[3; 0]; [3; 1]]) 0 = [None; None].
Proof.
  apply (plot_chain_constant_column_is_nan [[3; 0]; [3; 1]] 0 3).
  - repeat constructor.
  - cbn. lia.
  - intros row [<- | [<- | []]]; reflexivity.
Defined.

(** *** plot_pairs *)

Lemma subplots_and_then (g1 g2 : generated Plotting.call) :
  Plotting.subplots (Plotting.and_then g1 g2) =
    Plotting.subplots g1 ++ match raised g1 with
                            | Some _ => []
                            | None => Plotting.subplots g2
                            end.
Proof.
  unfold Plotting.subplots. rewrite items_and_then, flat_map_app.
  destruct (raised g1); reflexivity.
Qed.

Lemma subplots_label (mk : string -> Plotting.call) (names : list string) (i : nat) :
  (forall s r c k, mk s <> Plotting.add_subplot r c k) ->
  Plotting.subplots (Plotting.label mk names i) = [].
Proof.
  intros Hmk. unfold Plotting.label, Plotting.subplots.
  destruct (nth_error names i) as [name|]; [|reflexivity].
  cbn [items Plotting.calls flat_map app].
  destruct (mk name) eqn:E; try reflexivity.
  destruct (Hmk _ _ _ _ E).
Qed.

Lemma subplots_axis (kwargs : list (string * pyval)) :
  Plotting.subplots (Plotting._axis_no_draw kwargs) = [].
Proof.
  unfold Plotting._axis_no_draw, Plotting.subplots.
  destruct (unexpected_keyword _ kwargs); [reflexivity|].
  unfold Plotting._axis, Plotting.calls.
  destruct (Plotting.flag "legend" kwargs), (Plotting.flag "despine" kwargs); reflexivity.
Qed.

Lemma plot_pair_subplots (samples : Mat) (names : option (list string))
    (kwargs : list (string * pyval)) (d i j : nat) :
  Plotting.subplots (Plotting.plot_pair samples names kwargs d (i, j)) =
    if (j <=? i)%nat then []
    else [((Z.of_nat d - 1)%Z, (Z.of_nat d - 1)%Z, Plotting.pair_index d i j)].
Proof.
  unfold Plotting.plot_pair. destruct (j <=? i)%nat; [reflexivity|].
  rewrite subplots_and_then. cbn [raised Plotting.calls].
  assert (Hrest : forall g1 g2 g3,
            Plotting.subplots g1 = [] -> Plotting.subplots g2 = [] ->
            Plotting.subplots g3 = [] ->
            Plotting.subplots (Plotting.and_then g1 (Plotting.and_then g2 g3)) = []).
  { intros g1 g2 g3 H1 H2 H3. rewrite !subplots_and_then, H1, H2, H3.
    destruct (raised g1), (raised g2); reflexivity. }
  rewrite Hrest.
  - unfold Plotting.subplots. cbn [items flat_map app].
    destruct (0 <? i)%nat, (Z.of_nat j <? Z.of_nat d - 1)%Z; reflexivity.
  - destruct names as [names|]; [|reflexivity].
    destruct (i =? 0)%nat; [|reflexivity].
    apply subplots_label. discriminate.
  - destruct names as [names|]; [|reflexivity].
    destruct (_ =? _)%Z; [|reflexivity].
    apply subplots_label. discriminate.
  - apply subplots_axis.
Qed.

Lemma for_each_subplots {A} (body : A -> generated Plotting.call) (p : A -> bool)
    (g : A -> Z * Z * Z) (l : list A) :
  (forall a, Plotting.subplots (body a) = if p a then [g a] else []) ->
  exists l1 l2, l = l1 ++ l2 /\
    Plotting.subplots (Plotting.for_each body l) = map g (filter p l1).
Proof.
  intros Hbody. induction l as [|a l IH].
  - exists [], []. split; reflexivity.
  - cbn [Plotting.for_each]. rewrite subplots_and_then, Hbody.
    destruct (raised (body a)).
    + exists [a], l. split; [reflexivity|].
      cbn [filter]. destruct (p a); reflexivity.
    + destruct IH as (l1 & l2 & -> & Hs). exists (a :: l1), l2.
      split; [reflexivity|]. rewrite Hs. cbn [filter].
      destruct (p a); reflexivity.
Qed.

Lemma NoDup_list_prod {A B} (l1 : list A) (l2 : list B) :
  NoDup l1 -> NoDup l2 -> NoDup (list_prod l1 l2).
Proof.
  intros H1 H2. induction H1 as [|a l1 Ha H1 IH]; cbn [list_prod]; [constructor|].
  apply NoDup_app.
  - clear - H2. induction H2 as [|b l2 Hb H2 IH]; cbn [map]; constructor; [|exact IH].
    intros HIn. apply in_map_iff in HIn as (b' & E & Hb'). injection E as <-.
    contradiction.
  - exact IH.
  - intros [x y] Hx Hy. apply in_map_iff in Hx as (b & E & _). injection E as <- <-.
    apply in_prod_iff in Hy as [Hy _]. contradiction.
Qed.

Lemma NoDup_map_in {A B} (f : A -> B) (l : list A) :
  (forall x y, In x l -> In y l -> f x = f y -> x = y) ->
  NoDup l -> NoDup (map f l).
Proof.
  intros Hinj Hl. induction Hl as [|a l Ha Hl IH]; cbn [map]; constructor.
  - intros HIn. apply in_map_iff in HIn as (b & E & Hb).
    assert (b = a) by (apply Hinj; [now right | now left | exact E]).
    subst. contradiction.
  - apply IH. intros x y Hx Hy. apply Hinj; now right.
Qed.

Lemma in_ndindex (d i j : nat) :
  In (i, j) (Plotting.ndindex d) <-> (i < d)%nat /\ (j < d)%nat.
Proof.
  unfold Plotting.ndindex. rewrite in_prod_iff, !in_seq. lia.
Qed.

Lemma pair_index_inj (d i j i' j' : nat) :
  (i < j < d)%nat -> (i' < j' < d)%nat ->
  Plotting.pair_index d i j = Plotting.pair_index d i' j' ->
  (i, j) = (i', j').
Proof.
  unfold Plotting.pair_index. intros Hij Hij' E.
  assert (Hj : j = j') by nia. subst j'.
  assert (Hi : i = i') by lia. now subst.
Qed.

Lemma pair_index_range (d i j : nat) :
  (i < j < d)%nat ->
  (1 <= Plotting.pair_index d i j <= (Z.of_nat d - 1) * (Z.of_nat d - 1))%Z.
Proof. unfold Plotting.pair_index. intros Hij. nia. Qed.

Lemma plot_pairs_subplots (samples : Mat) (names : option (list string))
    (kwargs : list (string * pyval)) :
  exists l1 l2, Plotting.ndindex (ncols samples) = l1 ++ l2 /\
    Plotting.subplots (Plotting.plot_pairs samples names kwargs) =
      map (fun ij => ((Z.of_nat (ncols samples) - 1)%Z, (Z.of_nat (ncols samples) - 1)%Z,
                      Plotting.pair_index (ncols samples) (fst ij) (snd ij)))
          (filter (fun ij => negb (snd ij <=? fst ij)%nat) l1).
Proof.
  unfold Plotting.plot_pairs, Plotting.pop. cbv beta iota zeta.
  set (kwargs' := filter _ (filter _ kwargs)).
  set (d := ncols samples).
  destruct (for_each_subplots (Plotting.plot_pair samples names kwargs' d)
              (fun ij => negb (snd ij <=? fst ij)%nat)
              (fun ij => ((Z.of_nat d - 1)%Z, (Z.of_nat d - 1)%Z,
                          Plotting.pair_index d (fst ij) (snd ij)))
              (Plotting.ndindex d)) as (l1 & l2 & El & Hs).
  { intros [i j]. rewrite plot_pair_subplots. cbn [fst snd].
    destruct (j <=? i)%nat; reflexivity. }
  exists l1, l2. split; [exact El|].
  rewrite !subplots_and_then, Hs. cbn [raised Plotting.calls].
  change (Plotting.subplots (Generated [Plotting.fig_clf] None)) with (@nil (Z * Z * Z)).
  cbn [app].
  assert (Hfig : forall b, Plotting.subplots (Plotting.calls (Plotting._figure b)) = [])
    by (intros []; reflexivity).
  rewrite Hfig. destruct (raised _); now rewrite app_nil_r.
Qed.

(** X21: the subplots [plot_pairs] asks for, in a run that completes or one
    that is cut short by an exception, all lie on the (d-1) by (d-1) grid at
    positions between 1 and (d-1)^2, and no two of them are the same
    position. *)
Theorem plot_pairs_subplots_distinct_and_valid (samples : Mat)
    (names : option (list string)) (kwargs : list (string * pyval)) :
  let n := (Z.of_nat (ncols samples) - 1)%Z in
  NoDup (Plotting.subplots (Plotting.plot_pairs samples names kwargs)) /\
  Forall (fun s => fst (fst s) = n /\ snd (fst s) = n /\ (1 <= snd s <= n * n)%Z)
         (Plotting.subplots (Plotting.plot_pairs samples names kwargs)).
Proof.
  intros n. destruct (plot_pairs_subplots samples names kwargs) as (l1 & l2 & El & ->).
  set (d := ncols samples) in *.
  assert (Hin : forall ij, In ij (filter (fun ij => negb (snd ij <=? fst ij)%nat) l1) ->
                           (fst ij < snd ij < d)%nat).
  { intros [i j] HIn. apply filter_In in HIn as [HIn Hp]. cbn [fst snd] in *.
    assert (HIn' : In (i, j) (Plotting.ndindex d)) by (rewrite El; apply in_or_app; now left).
    apply in_ndindex in HIn'. apply negb_true_iff, Nat.leb_gt in Hp. lia. }
  split.
  - apply NoDup_map_in.
    + intros [i j] [i' j'] Hx Hy E. apply Hin in Hx, Hy. cbn [fst snd] in *.
      injection E as E. now apply (pair_index_inj d).
    + apply NoDup_filter.
      assert (Hnd : NoDup (Plotting.ndindex d))
        by (apply NoDup_list_prod; apply seq_NoDup).
      rewrite El in Hnd. now apply NoDup_app_remove_r in Hnd.
  - apply Forall_forall. intros s Hs. apply in_map_iff in Hs as ([i j] & <- & HIn).
    apply Hin in HIn. cbn [fst snd] in *.
    repeat split; try reflexivity; now apply pair_index_range.
Qed.

Lemma keyword_skips (name key : string) (v : pyval) (kw1 kw2 : list (string * pyval)) :
  String.eqb key name = false ->
  keyword name (kw1 ++ (key, v) :: kw2) = keyword name (kw1 ++ kw2).
Proof.
  intros Hne. induction kw1 as [|[k w] kw1 IH]; cbn [app keyword].
  - now rewrite Hne.
  - destruct (String.eqb k name); [reflexivity | exact IH].
Qed.

(** X22: [plot_pairs] ignores its [legend] keyword: the value is popped and
    never used, so the calls are the same with and without it. *)
Theorem plot_pairs_ignores_legend (samples : Mat) (names : option (list string))
    (kw1 kw2 : list (string * pyval)) (v : pyval) :
  Plotting.plot_pairs samples names (kw1 ++ ("legend"%string, v) :: kw2) =
    Plotting.plot_pairs samples names (kw1 ++ kw2).
Proof.
  unfold Plotting.plot_pairs, Plotting.pop. cbv beta iota zeta.
  rewrite (keyword_skips "draw" "legend" v kw1 kw2) by reflexivity.
  rewrite !filter_app. cbn [filter fst].
  change (negb (String.eqb "legend" "draw")) with true. cbv beta iota.
  cbn [filter fst].
  change (negb (String.eqb "legend" "legend")) with false. cbv beta iota.
  reflexivity.
Qed.

(** *** Redrawing *)

Lemma no_draw_in_axis (kwargs : list (string * pyval)) :
  ~ In Plotting.canvas_draw (items (Plotting._axis_no_draw kwargs)).
Proof.
  unfold Plotting._axis_no_draw.
  destruct (unexpected_keyword _ kwargs); [intros []|].
  unfold Plotting._axis, Plotting.calls.
  destruct (Plotting.flag "legend" kwargs), (Plotting.flag "despine" kwargs);
    cbn; intuition discriminate.
Qed.

Lemma no_draw_in_label (mk : string -> Plotting.call) (names : list string) (i : nat) :
  (forall s, mk s <> Plotting.canvas_draw) ->
  ~ In Plotting.canvas_draw (items (Plotting.label mk names i)).
Proof.
  intros Hmk. unfold Plotting.label.
  destruct (nth_error names i) as [name|]; cbn; [|tauto].
  intros [E | []]. exact (Hmk _ E).
Qed.

(** X23: with [draw=False] neither [plot_chain] nor [plot_pairs] redraws the
    canvas, in a run that completes or in one cut short by an exception. *)
Theorem draw_false_never_redraws (samples : Mat) (names : option (list string))
    (kwargs : list (string * pyval)) :
  ~ In Plotting.canvas_draw
       (items (Plotting.plot_chain samples names (("draw"%string, PyBool false) :: kwargs))) /\
  ~ In Plotting.canvas_draw
       (items (Plotting.plot_pairs samples names (("draw"%string, PyBool false) :: kwargs))).
Proof.
  assert (Hy : forall s, Plotting.set_ylabel s <> Plotting.canvas_draw) by discriminate.
  assert (Hx : forall s, Plotting.set_xlabel s <> Plotting.canvas_draw) by discriminate.
  split; intros Hc.
  - unfold Plotting.plot_chain in Hc.
    destruct samples as [|row0 rest]; [destruct Hc|].
    cbv beta iota zeta in Hc.
    set (normalized := Plotting.normalize (row0 :: rest)) in *. clearbody normalized.
    change (Plotting.pop "draw" (PyBool true) (("draw"%string, PyBool false) :: kwargs))
      with (PyBool false, filter (fun kv => negb (String.eqb (fst kv) "draw")) kwargs) in Hc.
    cbv beta iota zeta in Hc.
    set (kwargs' := filter _ kwargs) in *. clearbody kwargs'.
    apply in_and_then in Hc as [Hc | Hc]; [destruct Hc as [E | []]; discriminate|].
    apply in_and_then in Hc as [Hc | Hc]; [|destruct Hc].
    apply in_for_each in Hc as (i & _ & Hc).
    apply in_and_then in Hc as [Hc | Hc].
    { destruct Hc as [E | [E | [E | []]]]; discriminate. }
    apply in_and_then in Hc as [Hc | Hc].
    { destruct names as [names|]; [|destruct Hc].
      exact (no_draw_in_label Plotting.set_ylabel names i Hy Hc). }
    apply in_and_then in Hc as [Hc | Hc].
    { destruct (_ <? _)%Z; [destruct Hc as [E | []]; discriminate | destruct Hc]. }
    exact (no_draw_in_axis kwargs' Hc).
  - unfold Plotting.plot_pairs in Hc.
    change (Plotting.pop "draw" (PyBool true) (("draw"%string, PyBool false) :: kwargs))
      with (PyBool false, filter (fun kv => negb (String.eqb (fst kv) "draw")) kwargs) in Hc.
    unfold Plotting.pop in Hc. cbv beta iota zeta in Hc.
    set (kwargs' := filter _ (filter _ kwargs)) in *. clearbody kwargs'.
    apply in_and_then in Hc as [Hc | Hc]; [destruct Hc as [E | []]; discriminate|].
    apply in_and_then in Hc as [Hc | Hc]; [|destruct Hc].
    apply in_for_each in Hc as ([i j] & _ & Hc).
    unfold Plotting.plot_pair in Hc.
    destruct (j <=? i)%nat; [destruct Hc|].
    apply in_and_then in Hc as [Hc | Hc].
    { unfold Plotting.calls in Hc. cbn [items] in Hc.
      destruct (0 <? i)%nat, (Z.of_nat j <? Z.of_nat (ncols samples) - 1)%Z;
        cbn [app In] in Hc; intuition discriminate. }
    apply in_and_then in Hc as [Hc | Hc].
    { destruct names as [names|]; [|destruct Hc].
      destruct (i =? 0)%nat; [|destruct Hc].
      exact (no_draw_in_label Plotting.set_ylabel names j Hy Hc). }
    apply in_and_then in Hc as [Hc | Hc].
    { destruct names as [names|]; [|destruct Hc].
      destruct (_ =? _)%Z; [|destruct Hc].
      exact (no_draw_in_label Plotting.set_xlabel names i Hx Hc). }
    exact (no_draw_in_axis kwargs' Hc).
Qed.
